(** * alsa-lib: the UMP raw-MIDI wrapper (rawmidi/ump.c) and the PCM file
      plugin (pcm_file.c), embedded over their lower layers.

    Both translation units are adapters: every function calls into a layer
    that lives elsewhere (the raw-MIDI core, the PCM core, libc).  The lower
    layer is an interface here, a type class over an environment state, and
    each function of the two files is a computation in a small state monad
    that threads the environment, the memory the file itself manages and the
    log of the calls it makes downwards. *)

From stdpp Require Import gmap strings.
From Stdlib Require Import ZArith Lia.

Local Open Scope Z_scope.

(** Error numbers of <errno.h> (Linux values). *)
Module Errno.
Definition ENOMEM : Z := 12.
Definition EINVAL : Z := 22.
End Errno.

(* ===================================================================== *)
(** ** rawmidi/ump.c *)
(* ===================================================================== *)
Module Ump.
Import Errno.

(** A non-NULL address.  A C pointer is an [option ptr], NULL being [None]. *)
Abbreviation ptr := positive.

(** [struct _snd_ump] (ump_local.h): the wrapped raw-MIDI handle, the cached
    info flags and the direction mark. *)
Record snd_ump_t : Type := mk_snd_ump {
  rawmidi : option ptr;
  flags : Z;
  is_input : Z
}.

(** What [calloc(1, sizeof(snd_ump_t))] hands out: all fields zero. *)
Definition zeroed : snd_ump_t :=
  {| rawmidi := None; flags := 0; is_input := 0 |}.

Definition set_rawmidi (h : option ptr) (u : snd_ump_t) : snd_ump_t :=
  {| rawmidi := h; flags := flags u; is_input := is_input u |}.
Definition set_flags (f : Z) (u : snd_ump_t) : snd_ump_t :=
  {| rawmidi := rawmidi u; flags := f; is_input := is_input u |}.
Definition set_is_input (i : Z) (u : snd_ump_t) : snd_ump_t :=
  {| rawmidi := rawmidi u; flags := flags u; is_input := i |}.

(** The layer below ump.c: the raw-MIDI core, the allocator, and the two
    constants of headers that are not part of the translation unit.  [E] is
    the state of that layer; every entry returns its C result and the next
    state.  [snd_rawmidi_open] is told which of its two slots are non-NULL
    and returns what the slots hold when it comes back. *)
Class RawmidiLayer (E : Type) : Type := {
  SNDRV_RAWMIDI_INFO_UMP : Z;
  _SND_RAWMIDI_OPEN_UMP : Z;
  calloc : E -> bool * E;
  snd_rawmidi_open : bool -> bool -> string -> Z -> E -> (Z * option ptr * option ptr) * E;
  snd_rawmidi_close : option ptr -> E -> Z * E;
  snd_rawmidi_info : option ptr -> E -> (Z * Z) * E;
  snd_rawmidi_write : option ptr -> Z -> Z -> E -> Z * E;
  snd_rawmidi_read : option ptr -> Z -> Z -> E -> Z * E;
  snd_rawmidi_tread : option ptr -> Z -> Z -> Z -> E -> Z * E
}.

(** A call made downwards, with its arguments and what came back. *)
Inductive event : Type :=
| EvCalloc (r : option ptr)
| EvFree (p : ptr)
| EvRawmidiOpen (want_in want_out : bool) (name : string) (mode : Z)
                (err : Z) (hin hout : option ptr)
| EvRawmidiClose (h : option ptr) (err : Z)
| EvRawmidiInfo (h : option ptr) (err : Z) (info_flags : Z)
| EvRawmidiWrite (h : option ptr) (buffer size : Z) (r : Z)
| EvRawmidiRead (h : option ptr) (buffer size : Z) (r : Z)
| EvRawmidiTread (h : option ptr) (tstamp buffer size : Z) (r : Z).

Section Model.
Context {E : Type} {L : RawmidiLayer E}.

(** The world ump.c runs in: the lower layer, the wrapper structs that are
    allocated, and the calls made so far (oldest first). *)
Record world : Type := mk_world {
  w_env : E;
  w_heap : gmap positive snd_ump_t;
  w_trace : list event
}.

(** State and fault: [None] is undefined behaviour, an access through a
    pointer that is not allocated. *)
Definition M (A : Type) : Type := world -> option (A * world).

Definition ret {A : Type} (a : A) : M A := fun w => Some (a, w).

Definition bind {A B : Type} (m : M A) (k : A -> M B) : M B :=
  fun w => match m w with
           | Some (a, w') => k a w'
           | None => None
           end.

Definition deref (p : ptr) : M snd_ump_t :=
  fun w => match w_heap w !! p with
           | Some u => Some (u, w)
           | None => None
           end.

Definition update (p : ptr) (f : snd_ump_t -> snd_ump_t) : M unit :=
  fun w => match w_heap w !! p with
           | Some u => Some (tt, {| w_env := w_env w;
                                    w_heap := <[p := f u]> (w_heap w);
                                    w_trace := w_trace w |})
           | None => None
           end.

(** [calloc(1, sizeof(snd_ump_t))]: NULL when the allocator refuses, else an
    address not in use, holding a zeroed struct. *)
Definition calloc_ump : M (option ptr) :=
  fun w => let '(ok, e) := calloc (w_env w) in
           if ok then
             let p := fresh (dom (w_heap w)) in
             Some (Some p, {| w_env := e;
                              w_heap := <[p := zeroed]> (w_heap w);
                              w_trace := w_trace w ++ [EvCalloc (Some p)] |})
           else
             Some (None, {| w_env := e;
                            w_heap := w_heap w;
                            w_trace := w_trace w ++ [EvCalloc None] |}).

Definition free (p : ptr) : M unit :=
  fun w => match w_heap w !! p with
           | Some _ => Some (tt, {| w_env := w_env w;
                                    w_heap := delete p (w_heap w);
                                    w_trace := w_trace w ++ [EvFree p] |})
           | None => None
           end.

(** A call into the lower layer: run it on the environment, log it. *)
Definition lower {A : Type} (f : E -> A * E) (ev : A -> event) : M A :=
  fun w => let '(a, e) := f (w_env w) in
           Some (a, {| w_env := e; w_heap := w_heap w;
                       w_trace := w_trace w ++ [ev a] |}).

End Model.

Arguments world : clear implicits.
Arguments M : clear implicits.

Declare Scope ump_scope.
Delimit Scope ump_scope with ump.
Notation "x <- c1 ;; c2" := (bind c1 (fun x => c2))
  (at level 100, c1 at next level, right associativity) : ump_scope.
Notation "c1 ;;; c2" := (bind c1 (fun _ => c2))
  (at level 100, right associativity) : ump_scope.

Section Code.
Context {E : Type} {L : RawmidiLayer E}.
Local Open Scope ump_scope.

(** [if (x)] on an int. *)
Definition truthy (x : Z) : bool := negb (x =? 0).

Definition is_null {A : Type} (p : option A) : bool :=
  match p with Some _ => false | None => true end.

(** ump.c:14 *)
Definition get_rawmidi_flags (ump : ptr) : M E Z :=
  u <- deref ump ;;
  info <- lower (snd_rawmidi_info (rawmidi u))
                (fun r => EvRawmidiInfo (rawmidi u) (fst r) (snd r)) ;;
  let '(err, info_flags) := info in
  if err <? 0 then ret err
  else if negb (truthy (Z.land info_flags SNDRV_RAWMIDI_INFO_UMP)) then ret (- EINVAL)
  else update ump (set_flags info_flags) ;;; ret 0.

(** The [error:] label of [snd_ump_open] (ump.c:89): close what was opened,
    free what was allocated. *)
Definition release (p : option ptr) : M E unit :=
  match p with
  | Some q =>
      u <- deref q ;;
      (match rawmidi u with
       | Some h => lower (snd_rawmidi_close (Some h)) (EvRawmidiClose (Some h)) ;;; ret tt
       | None => ret tt
       end) ;;;
      free q
  | None => ret tt
  end.

Definition snd_ump_open_error (input output : option ptr) (err : Z)
  : M E (Z * option ptr * option ptr) :=
  release input ;;; release output ;;; ret (err, None, None).

(** ump.c:39.  [inputp] and [outputp] say whether the caller passed a slot;
    the result carries the return value and what the two slots hold at the
    end ([None] for NULL, and for a slot that was not passed). *)
Definition snd_ump_open (inputp outputp : bool) (name : string) (mode : Z)
  : M E (Z * option ptr * option ptr) :=
  if negb inputp && negb outputp then ret (- EINVAL, None, None)
  else
    input <- (if inputp then calloc_ump else ret None) ;;
    if inputp && is_null input then snd_ump_open_error input None (- ENOMEM)
    else
      (match input with
       | Some i => update i (set_is_input 1)
       | None => ret tt
       end) ;;;
      output <- (if outputp then calloc_ump else ret None) ;;
      if outputp && is_null output then snd_ump_open_error input output (- ENOMEM)
      else
        let want_in := negb (is_null input) in
        let want_out := negb (is_null output) in
        let mode' := Z.lor mode _SND_RAWMIDI_OPEN_UMP in
        opened <-
            lower (fun e =>
                     let '((err, hin, hout), e') :=
                       snd_rawmidi_open want_in want_out name mode' e in
                     ((err, if want_in then hin else None,
                            if want_out then hout else None), e'))
                  (fun r => EvRawmidiOpen want_in want_out name mode'
                                          (fst (fst r)) (snd (fst r)) (snd r)) ;;
        let '(err, hin, hout) := opened in
        (match input with
         | Some i => update i (set_rawmidi hin)
         | None => ret tt
         end) ;;;
        (match output with
         | Some o => update o (set_rawmidi hout)
         | None => ret tt
         end) ;;;
        if err <? 0 then snd_ump_open_error input output err
        else
          err <- (match input with
                  | Some i => get_rawmidi_flags i
                  | None => ret err
                  end) ;;
          if err <? 0 then snd_ump_open_error input output err
          else
            err <- (match output with
                    | Some o => get_rawmidi_flags o
                    | None => ret err
                    end) ;;
            if err <? 0 then snd_ump_open_error input output err
            else ret (0, input, output).


(** ump.c:270 *)
Definition snd_ump_write (ump : ptr) (buffer size : Z) : M E Z :=
  u <- deref ump ;;
  if truthy (is_input u) then ret (- EINVAL)
  else lower (snd_rawmidi_write (rawmidi u) buffer size)
             (EvRawmidiWrite (rawmidi u) buffer size).

(** ump.c:284 *)
Definition snd_ump_read (ump : ptr) (buffer size : Z) : M E Z :=
  u <- deref ump ;;
  if negb (truthy (is_input u)) then ret (- EINVAL)
  else lower (snd_rawmidi_read (rawmidi u) buffer size)
             (EvRawmidiRead (rawmidi u) buffer size).

(** ump.c:299 *)
Definition snd_ump_tread (ump : ptr) (tstamp buffer size : Z) : M E Z :=
  u <- deref ump ;;
  if negb (truthy (is_input u)) then ret (- EINVAL)
  else lower (snd_rawmidi_tread (rawmidi u) tstamp buffer size)
             (EvRawmidiTread (rawmidi u) tstamp buffer size).

End Code.
(** *** Reading the log *)

Definition handles (h : option ptr) : list ptr :=
  match h with Some p => [p] | None => [] end.

(** Raw-MIDI handles the call acquired: what [snd_rawmidi_open] left in the
    slots. *)
Fixpoint acquired_handles (tr : list event) : list ptr :=
  match tr with
  | [] => []
  | EvRawmidiOpen _ _ _ _ _ hin hout :: tr' =>
      handles hin ++ handles hout ++ acquired_handles tr'
  | _ :: tr' => acquired_handles tr'
  end.

(** Raw-MIDI handles passed to [snd_rawmidi_close], one entry per call. *)
Fixpoint closed_handles (tr : list event) : list ptr :=
  match tr with
  | [] => []
  | EvRawmidiClose h _ :: tr' => handles h ++ closed_handles tr'
  | _ :: tr' => closed_handles tr'
  end.

(** Wrapper structs handed out by [calloc], and those given to [free]. *)
Fixpoint allocated (tr : list event) : list ptr :=
  match tr with
  | [] => []
  | EvCalloc r :: tr' => handles r ++ allocated tr'
  | _ :: tr' => allocated tr'
  end.

Fixpoint freed (tr : list event) : list ptr :=
  match tr with
  | [] => []
  | EvFree p :: tr' => p :: freed tr'
  | _ :: tr' => freed tr'
  end.

Section Reading.
Context {E : Type} {L : RawmidiLayer E}.

(** The raw-MIDI handle a wrapper holds, if the pointer is a live wrapper. *)
Definition held (w : world E) (p : option ptr) : list ptr :=
  match p with
  | Some q => match w_heap w !! q with
              | Some u => handles (rawmidi u)
              | None => []
              end
  | None => []
  end.

(** Do these info flags carry the UMP bit? *)
Definition advertises_ump (info_flags : Z) : bool :=
  truthy (Z.land info_flags SNDRV_RAWMIDI_INFO_UMP).

End Reading.

(** *** A scripted lower layer, for running the code on concrete inputs.
    The allocator grants [sc_allocs] more requests; [snd_rawmidi_open]
    answers [sc_open] and, when it succeeds, hands out the next two
    addresses; the info query answers [sc_info] with [sc_flags]; reads and
    writes move [sc_io] bytes. *)
Record script : Type := mk_script {
  sc_allocs : nat;
  sc_open : Z;
  sc_info : Z;
  sc_flags : Z;
  sc_close : Z;
  sc_io : Z;
  sc_next : positive
}.

#[global] Instance scripted : RawmidiLayer script := {|
  SNDRV_RAWMIDI_INFO_UMP := 8;
  _SND_RAWMIDI_OPEN_UMP := Z.shiftl 1 30;
  calloc := fun s =>
    match sc_allocs s with
    | O => (false, s)
    | S k => (true, {| sc_allocs := k; sc_open := sc_open s; sc_info := sc_info s;
                       sc_flags := sc_flags s; sc_close := sc_close s;
                       sc_io := sc_io s; sc_next := sc_next s |})
    end;
  snd_rawmidi_open := fun want_in want_out _ _ s =>
    if sc_open s <? 0 then ((sc_open s, None, None), s)
    else ((sc_open s,
           if want_in then Some (sc_next s) else None,
           if want_out then Some (Pos.succ (sc_next s)) else None),
          {| sc_allocs := sc_allocs s; sc_open := sc_open s; sc_info := sc_info s;
             sc_flags := sc_flags s; sc_close := sc_close s; sc_io := sc_io s;
             sc_next := Pos.succ (Pos.succ (sc_next s)) |});
  snd_rawmidi_close := fun _ s => (sc_close s, s);
  snd_rawmidi_info := fun _ s => ((sc_info s, sc_flags s), s);
  snd_rawmidi_write := fun _ _ _ s => (sc_io s, s);
  snd_rawmidi_read := fun _ _ _ s => (sc_io s, s);
  snd_rawmidi_tread := fun _ _ _ _ s => (sc_io s, s)
|}.

(** A UMP device that opens and answers every call. *)
Definition ump_device : script :=
  {| sc_allocs := 2; sc_open := 0; sc_info := 0; sc_flags := 8 + 2 + 1;
     sc_close := 0; sc_io := 4; sc_next := 100 |}.

(** A legacy raw-MIDI device: the info flags lack the UMP bit. *)
Definition legacy_device : script :=
  {| sc_allocs := 2; sc_open := 0; sc_info := 0; sc_flags := 2 + 1;
     sc_close := 0; sc_io := 4; sc_next := 100 |}.

(** The legacy device, with the allocator out of memory. *)
Definition legacy_device_no_memory : script :=
  {| sc_allocs := 0; sc_open := 0; sc_info := 0; sc_flags := 2 + 1;
     sc_close := 0; sc_io := 4; sc_next := 100 |}.

Definition boot (s : script) : world script :=
  {| w_env := s; w_heap := ∅; w_trace := [] |}.

(** The two wrappers a duplex open of [ump_device] leaves, and the world
    after it. *)
Definition input_handle : snd_ump_t :=
  {| rawmidi := Some 100%positive; flags := 11; is_input := 1 |}.
Definition output_handle : snd_ump_t :=
  {| rawmidi := Some 101%positive; flags := 11; is_input := 0 |}.

Definition opened : world script :=
  {| w_env := {| sc_allocs := 0; sc_open := 0; sc_info := 0; sc_flags := 11;
                 sc_close := 0; sc_io := 4; sc_next := 102 |};
     w_heap := {[ 1%positive := input_handle; 2%positive := output_handle ]};
     w_trace := [EvCalloc (Some 1%positive); EvCalloc (Some 2%positive);
                 EvRawmidiOpen true true "hw" (Z.shiftl 1 30) 0
                               (Some 100%positive) (Some 101%positive);
                 EvRawmidiInfo (Some 100%positive) 0 11;
                 EvRawmidiInfo (Some 101%positive) 0 11] |}.

(** The world after a duplex open of [legacy_device] was refused. *)
Definition after_legacy_open : world script :=
  {| w_env := {| sc_allocs := 0; sc_open := 0; sc_info := 0; sc_flags := 3;
                 sc_close := 0; sc_io := 4; sc_next := 102 |};
     w_heap := ∅;
     w_trace := [EvCalloc (Some 1%positive); EvCalloc (Some 2%positive);
                 EvRawmidiOpen true true "hw" (Z.shiftl 1 30) 0
                               (Some 100%positive) (Some 101%positive);
                 EvRawmidiInfo (Some 100%positive) 0 3;
                 EvRawmidiClose (Some 100%positive) 0; EvFree 1;
                 EvRawmidiClose (Some 101%positive) 0; EvFree 2] |}.

End Ump.

(* ===================================================================== *)
(** ** pcm/pcm_file.c *)
(* ===================================================================== *)
Module PcmFile.
Import Errno.

(** A [snd_pcm_t *] of the PCM core (the slave is one). *)
Abbreviation pcm_h := positive.

(** [snd_pcm_file_t] (pcm_file.c:642).  [fname] is NULL when the plugin was
    given a descriptor instead of a path. *)
Record snd_pcm_file_t : Type := mk_file {
  slave : pcm_h;
  close_slave : Z;
  fname : option string;
  fd : Z
}.

(** The fields of the plugin's own [snd_pcm_t] that pcm_file.c touches. *)
Record snd_pcm_t : Type := mk_pcm {
  pcm_type : Z;
  stream : Z;
  mode : Z;
  priv : snd_pcm_file_t;       (* pcm->private *)
  bits_per_sample : Z;
  bits_per_frame : Z;
  channels : nat;              (* pcm->setup.format.channels *)
  sfmt : Z;                    (* pcm->setup.format.sfmt *)
  buffer_size : Z;             (* pcm->setup.buffer_size *)
  bytes_per_frame : Z
}.

(** Modelled from the spec: [snd_pcm_frames_to_bytes] is declared in
    pcm_local.h and defined in the PCM core, neither of which is part of the
    file; the specification describes the byte count of a run of frames as
    the frame count times the bytes per frame. *)
Definition snd_pcm_frames_to_bytes (pcm : snd_pcm_t) (frames : Z) : Z :=
  frames * bytes_per_frame pcm.

(** [snd_pcm_channel_area_t]: where the samples of one channel lie. *)
Record snd_pcm_channel_area_t : Type := mk_area {
  first : Z;
  step : Z
}.

(** The source of an area copy: the mmap ring of the plugin, or the areas
    built by [snd_pcm_areas_from_bufs] over the caller's buffers. *)
Inductive areas : Type :=
| MmapAreas
| BufAreas (bufs : Z).

(** The layer below pcm_file.c: the PCM core acting on the slave, the
    allocator and the system calls whose result the kernel decides.  [E] is
    the state of that layer.  [write_accepts fd count] is the value write(2)
    returns. *)
Class PcmLayer (E : Type) : Type := {
  SND_PCM_TYPE_FILE : Z;
  calloc : E -> bool * E;
  open_result : string -> E -> (Z * Z) * E;       (* fd or -1, and errno *)
  write_accepts : Z -> Z -> E -> Z * E;
  snd_pcm_init : E -> Z * E;
  snd_pcm_close : pcm_h -> E -> Z * E;
  snd_pcm_close_self : E -> Z * E;                (* the core's own part of snd_pcm_close on the plugin's handle *)
  slave_stream : pcm_h -> E -> Z;
  slave_mode : pcm_h -> E -> Z;
  snd_pcm_rewind : pcm_h -> Z -> E -> Z * E;
  snd_pcm_writei : pcm_h -> Z -> Z -> E -> Z * E;
  snd_pcm_writen : pcm_h -> Z -> Z -> E -> Z * E;
  snd_pcm_readi : pcm_h -> Z -> Z -> E -> Z * E;
  snd_pcm_readn : pcm_h -> Z -> Z -> E -> Z * E;
  snd_pcm_mmap_forward : pcm_h -> Z -> E -> Z * E;
  appl_ptr : E -> Z                               (* pcm->mmap_control->appl_ptr *)
}.

(** An open file description: offset, bytes taken by write(2) so far, and
    whether it can seek (a pipe cannot). *)
Record filedesc : Type := mk_filedesc {
  f_pos : Z;
  f_written : Z;
  f_seekable : bool
}.

Inductive freed : Type := FreeFname | FreeFile | FreeHandle.

Inductive event : Type :=
| EvCalloc (ok : bool)
| EvFree (what : freed)
| EvOpen (name : string) (r : Z)
| EvWrite (fd count r : Z)
| EvLseek (fd off r : Z)
| EvClose (fd : Z)
| EvPcmInit (r : Z)
| EvPcmClose (h : pcm_h) (r : Z)
| EvPcmCloseSelf (r : Z)
| EvRewind (h : pcm_h) (frames r : Z)
| EvWritei (h : pcm_h) (buffer size r : Z)
| EvWriten (h : pcm_h) (bufs size r : Z)
| EvReadi (h : pcm_h) (buffer size r : Z)
| EvReadn (h : pcm_h) (bufs size r : Z)
| EvMmapForward (h : pcm_h) (size r : Z)
| EvAreasFromBufs (bufs : Z)
| EvAreasCopy (src : areas) (src_offset : Z) (dst : list snd_pcm_channel_area_t)
              (nchannels : nat) (frames : Z) (format : Z).

Section Model.
Context {E : Type} {L : PcmLayer E}.

(** The world pcm_file.c runs in: the lower layer, the descriptor table of
    the process and the calls made so far (oldest first). *)
Record world : Type := mk_world {
  w_env : E;
  w_files : gmap Z filedesc;
  w_trace : list event
}.

(** How a call ends: it returns, the process is killed (a failed [assert],
    a division by zero), or the loop has not finished within the fuel. *)
Inductive outcome (A : Type) : Type :=
| Ret (a : A) (w : world)
| Abort
| Diverge.
Arguments Ret {A} a w.
Arguments Abort {A}.
Arguments Diverge {A}.

Definition M (A : Type) : Type := world -> outcome A.

Definition ret {A : Type} (a : A) : M A := fun w => Ret a w.

Definition bind {A B : Type} (m : M A) (k : A -> M B) : M B :=
  fun w => match m w with
           | Ret a w' => k a w'
           | Abort => Abort
           | Diverge => Diverge
           end.

Definition emit (e : event) : M unit :=
  fun w => Ret tt {| w_env := w_env w; w_files := w_files w;
                     w_trace := w_trace w ++ [e] |}.

Definition assert (b : bool) : M unit :=
  fun w => if b then Ret tt w else Abort.

(** A call into the lower layer: run it on the environment, log it. *)
Definition lower {A : Type} (f : E -> A * E) (ev : A -> event) : M A :=
  fun w => let '(a, e) := f (w_env w) in
           Ret a {| w_env := e; w_files := w_files w;
                    w_trace := w_trace w ++ [ev a] |}.

(** A read of a field the lower layer owns. *)
Definition peek {A : Type} (f : E -> A) : M A :=
  fun w => Ret (f (w_env w)) w.

(** write(2): -1 on a descriptor that is not open; else the kernel takes
    [r] bytes and the offset moves by as much. *)
Definition sys_write (fd count : Z) : M Z :=
  fun w => match w_files w !! fd with
           | None =>
               Ret (-1) {| w_env := w_env w; w_files := w_files w;
                           w_trace := w_trace w ++ [EvWrite fd count (-1)] |}
           | Some f =>
               let '(r, e) := write_accepts fd count (w_env w) in
               let f' := if 0 <? r
                         then {| f_pos := f_pos f + r;
                                 f_written := f_written f + r;
                                 f_seekable := f_seekable f |}
                         else f in
               Ret r {| w_env := e; w_files := <[fd := f']> (w_files w);
                        w_trace := w_trace w ++ [EvWrite fd count r] |}
           end.

(** lseek(2) with SEEK_CUR: -1 on a descriptor that is not open (EBADF),
    on one that cannot seek (ESPIPE) and when the offset would become
    negative (EINVAL); else the new offset. *)
Definition sys_lseek_cur (fd off : Z) : M Z :=
  fun w =>
    let r := match w_files w !! fd with
             | None => -1
             | Some f => if f_seekable f && (0 <=? f_pos f + off)
                         then f_pos f + off else -1
             end in
    let files := match w_files w !! fd with
                 | Some f => if 0 <=? r
                             then <[fd := {| f_pos := r;
                                             f_written := f_written f;
                                             f_seekable := f_seekable f |}]> (w_files w)
                             else w_files w
                 | None => w_files w
                 end in
    Ret r {| w_env := w_env w; w_files := files;
             w_trace := w_trace w ++ [EvLseek fd off r] |}.

(** close(2): the descriptor leaves the table. *)
Definition sys_close (fd : Z) : M unit :=
  fun w => Ret tt {| w_env := w_env w; w_files := delete fd (w_files w);
                     w_trace := w_trace w ++ [EvClose fd] |}.

(** open(2) with O_WRONLY|O_CREAT: on success a new description at offset 0
    enters the table. *)
Definition sys_open (name : string) : M (Z * Z) :=
  fun w => let '((r, errno), e) := open_result name (w_env w) in
           let files := if r <? 0 then w_files w
                        else <[r := {| f_pos := 0; f_written := 0;
                                       f_seekable := true |}]> (w_files w) in
           Ret (r, errno) {| w_env := e; w_files := files;
                             w_trace := w_trace w ++ [EvOpen name r] |}.

End Model.

Arguments world : clear implicits.
Arguments outcome : clear implicits.
Arguments M : clear implicits.
Arguments Ret {E A} a w.
Arguments Abort {E A}.
Arguments Diverge {E A}.

Declare Scope pcm_scope.
Delimit Scope pcm_scope with pcm.
Notation "x <- c1 ;; c2" := (bind c1 (fun x => c2))
  (at level 100, c1 at next level, right associativity) : pcm_scope.
Notation "c1 ;;; c2" := (bind c1 (fun _ => c2))
  (at level 100, right associativity) : pcm_scope.

Section Code.
Context {E : Type} {L : PcmLayer E}.
Local Open Scope pcm_scope.

(** [if (x)] on an int. *)
Definition truthy (x : Z) : bool := negb (x =? 0).

(** Arithmetic on [size_t] (64 bits wide) wraps around. *)
Definition size_t (z : Z) : Z := z mod 2 ^ 64.

(** pcm_file.c:649 *)
Definition snd_pcm_file_close (pcm : snd_pcm_t) : M E Z :=
  let file := priv pcm in
  err <- (if truthy (close_slave file)
          then lower (snd_pcm_close (slave file)) (EvPcmClose (slave file))
          else ret 0) ;;
  (match fname file with
   | Some _ => emit (EvFree FreeFname) ;;; sys_close (fd file)
   | None => ret tt
   end) ;;;
  emit (EvFree FreeFile) ;;;
  ret 0.

(** pcm_file.c:741 *)
Definition snd_pcm_file_rewind (pcm : snd_pcm_t) (frames : Z) : M E Z :=
  let file := priv pcm in
  f <- lower (snd_pcm_rewind (slave file) frames) (EvRewind (slave file) frames) ;;
  if 0 <? f then
    err <- sys_lseek_cur (fd file) (- snd_pcm_frames_to_bytes pcm f) ;;
    if err <? 0 then ret err else ret f
  else ret f.

(** The [buf_areas] array that pcm_file.c:765 fills: channel [c] starts at
    bit [bits_per_sample * c] of the interleaved buffer. *)
Definition buf_areas (pcm : snd_pcm_t) : list snd_pcm_channel_area_t :=
  List.map (fun channel => {| first := bits_per_sample pcm * Z.of_nat channel;
                              step := bits_per_frame pcm |})
           (seq 0 (channels pcm)).

(** pcm_file.c:754 *)
Definition snd_pcm_file_write_areas (pcm : snd_pcm_t) (src : areas)
    (offset frames : Z) : M E unit :=
  let file := priv pcm in
  let bytes := snd_pcm_frames_to_bytes pcm frames in
  emit (EvAreasCopy src offset (buf_areas pcm) (channels pcm) frames (sfmt pcm)) ;;;
  r <- sys_write (fd file) bytes ;;
  assert (r =? bytes).

(** pcm_file.c:777 *)
Definition snd_pcm_file_writei (pcm : snd_pcm_t) (buffer size : Z) : M E Z :=
  let file := priv pcm in
  n <- lower (snd_pcm_writei (slave file) buffer size)
             (EvWritei (slave file) buffer size) ;;
  (if 0 <? n then
     let bytes := snd_pcm_frames_to_bytes pcm n in
     r <- sys_write (fd file) bytes ;;
     assert (r =? bytes)
   else ret tt) ;;;
  ret n.

(** pcm_file.c:789 *)
Definition snd_pcm_file_writen (pcm : snd_pcm_t) (bufs size : Z) : M E Z :=
  let file := priv pcm in
  n <- lower (snd_pcm_writen (slave file) bufs size)
             (EvWriten (slave file) bufs size) ;;
  (if 0 <? n then
     emit (EvAreasFromBufs bufs) ;;;
     snd_pcm_file_write_areas pcm (BufAreas bufs) 0 n
   else ret tt) ;;;
  ret n.

(** pcm_file.c:801 *)
Definition snd_pcm_file_readi (pcm : snd_pcm_t) (buffer size : Z) : M E Z :=
  let file := priv pcm in
  n <- lower (snd_pcm_readi (slave file) buffer size)
             (EvReadi (slave file) buffer size) ;;
  (if 0 <? n then
     let bytes := snd_pcm_frames_to_bytes pcm n in
     r <- sys_write (fd file) bytes ;;
     assert (r =? bytes)
   else ret tt) ;;;
  ret n.

(** pcm_file.c:813.  Line 817 calls [snd_pcm_writen]. *)
Definition snd_pcm_file_readn (pcm : snd_pcm_t) (bufs size : Z) : M E Z :=
  let file := priv pcm in
  n <- lower (snd_pcm_writen (slave file) bufs size)
             (EvWriten (slave file) bufs size) ;;
  (if 0 <? n then
     emit (EvAreasFromBufs bufs) ;;;
     snd_pcm_file_write_areas pcm (BufAreas bufs) 0 n
   else ret tt) ;;;
  ret n.

(** What the specification says [snd_pcm_file_readn] does: the same
    mirroring, on the result of the slave's readn. *)
Definition snd_pcm_file_readn_spec (pcm : snd_pcm_t) (bufs size : Z) : M E Z :=
  let file := priv pcm in
  n <- lower (snd_pcm_readn (slave file) bufs size)
             (EvReadn (slave file) bufs size) ;;
  (if 0 <? n then
     emit (EvAreasFromBufs bufs) ;;;
     snd_pcm_file_write_areas pcm (BufAreas bufs) 0 n
   else ret tt) ;;;
  ret n.

(** The [while] loop of pcm_file.c:833.  [n] is positive here, so the cast
    [(size_t)n] is [n] itself. *)
Fixpoint mmap_forward_loop (fuel : nat) (pcm : snd_pcm_t) (size n ofs xfer : Z)
  : M E unit :=
  if xfer <? n then
    match fuel with
    | O => fun _ => Diverge
    | S fuel' =>
        let frames := size_t (size - xfer) in
        let cont := size_t (buffer_size pcm - ofs) in
        let frames := if cont <? frames then cont else frames in
        snd_pcm_file_write_areas pcm MmapAreas ofs frames ;;;
        let ofs := size_t (ofs + frames) in
        let ofs := if ofs =? buffer_size pcm then 0 else ofs in
        mmap_forward_loop fuel' pcm size n ofs (size_t (xfer + frames))
    end
  else ret tt.

(** pcm_file.c:825.  [%] by zero kills the process. *)
Definition snd_pcm_file_mmap_forward (fuel : nat) (pcm : snd_pcm_t) (size : Z)
  : M E Z :=
  let file := priv pcm in
  a <- peek appl_ptr ;;
  assert (negb (buffer_size pcm =? 0)) ;;;
  let ofs := a mod buffer_size pcm in
  n <- lower (snd_pcm_mmap_forward (slave file) size)
             (EvMmapForward (slave file) size) ;;
  if n <=? 0 then ret n
  else mmap_forward_loop fuel pcm size n ofs 0 ;;; ret n.

(** [snd_pcm_close] on a handle of this plugin (the call of
    pcm_file.c:1008).  The function is in the PCM core, not in this file:
    what the core does on its own is the layer's [snd_pcm_close_self]; the
    call it makes through [handle->ops->close] lands in
    [snd_pcm_file_close], the close entry of [snd_pcm_file_ops]
    (pcm_file.c:935), which line 1000 has installed, with [handle->private]
    set at line 1005.  The entry returns 0, so the code is the core's. *)
Definition snd_pcm_close_handle (handle : snd_pcm_t) : M E Z :=
  r <- lower snd_pcm_close_self EvPcmCloseSelf ;;
  snd_pcm_file_close handle ;;;
  ret r.

(** pcm_file.c:973.  The handle comes zeroed from [calloc]; the fields the
    function sets are set, the others stay 0. *)
Definition snd_pcm_file_open (fname : option string) (fd : Z) (slave : pcm_h)
    (close_slave : Z) : M E (Z * option snd_pcm_t) :=
  opened <- (match fname with
             | Some name => sys_open name
             | None => ret (fd, 0)
             end) ;;
  let '(fd, errno) := opened in
  if (match fname with Some _ => true | None => false end) && (fd <? 0)
  then ret (- errno, None)
  else
    got_file <- lower calloc EvCalloc ;;
    if negb got_file then ret (- ENOMEM, None)
    else
      let file := {| slave := slave; close_slave := close_slave;
                     fname := fname; fd := fd |} in
      got_handle <- lower calloc EvCalloc ;;
      if negb got_handle then emit (EvFree FreeFile) ;;; ret (- ENOMEM, None)
      else
        st <- peek (slave_stream slave) ;;
        md <- peek (slave_mode slave) ;;
        let handle := {| pcm_type := SND_PCM_TYPE_FILE; stream := st; mode := md;
                         priv := file; bits_per_sample := 0; bits_per_frame := 0;
                         channels := 0; sfmt := 0; buffer_size := 0;
                         bytes_per_frame := 0 |} in
        err <- lower snd_pcm_init EvPcmInit ;;
        if err <? 0
        then snd_pcm_close_handle handle ;;; ret (err, None)
        else ret (0, Some handle).

End Code.

(** A sequence of transfers through the plugin. *)
Inductive transfer : Type :=
| Writei (buffer size : Z)
| Readi (buffer size : Z)
| MmapForward (size : Z).

Section Run.
Context {E : Type} {L : PcmLayer E}.
Local Open Scope pcm_scope.

Definition run_transfer (fuel : nat) (pcm : snd_pcm_t) (t : transfer) : M E Z :=
  match t with
  | Writei buffer size => snd_pcm_file_writei pcm buffer size
  | Readi buffer size => snd_pcm_file_readi pcm buffer size
  | MmapForward size => snd_pcm_file_mmap_forward fuel pcm size
  end.

(** Runs the transfers in order and collects what each returned. *)
Fixpoint run_transfers (fuel : nat) (pcm : snd_pcm_t) (ts : list transfer)
  : M E (list Z) :=
  match ts with
  | [] => ret []
  | t :: ts' =>
      n <- run_transfer fuel pcm t ;;
      ns <- run_transfers fuel pcm ts' ;;
      ret (n :: ns)
  end.

(** Bytes the mirror descriptor has taken so far (0 when it is not open). *)
Definition mirrored (pcm : snd_pcm_t) (w : world E) : Z :=
  match w_files w !! fd (priv pcm) with
  | Some f => f_written f
  | None => 0
  end.

(** Offset of the mirror descriptor. *)
Definition position (pcm : snd_pcm_t) (w : world E) : option Z :=
  f_pos <$> (w_files w !! fd (priv pcm)).

(** The bytes a list of returned frame counts stands for: only a positive
    count is a transfer. *)
Definition transferred_bytes (pcm : snd_pcm_t) (ns : list Z) : Z :=
  fold_right (fun n acc => (if 0 <? n then snd_pcm_frames_to_bytes pcm n else 0) + acc)
             0 ns.

End Run.

(** The chunks the loop copies out of the ring when it starts at [ofs]. *)
Definition chunks (pcm : snd_pcm_t) (size n ofs : Z) : list (Z * Z) :=
  let B := buffer_size pcm in
  if ofs + n <=? B then [(ofs, Z.min size (B - ofs))]
  else [(ofs, B - ofs); (0, Z.min (size - (B - ofs)) B)].

(** *** Reading the log *)

(** The write(2) calls of a log: descriptor and byte count of each. *)
Fixpoint writes (tr : list event) : list (Z * Z) :=
  match tr with
  | [] => []
  | EvWrite fd count _ :: tr' => (fd, count) :: writes tr'
  | _ :: tr' => writes tr'
  end.

(** The area copies out of the mmap ring: ring offset and frame count. *)
Fixpoint ring_copies (tr : list event) : list (Z * Z) :=
  match tr with
  | [] => []
  | EvAreasCopy MmapAreas ofs _ _ frames _ :: tr' => (ofs, frames) :: ring_copies tr'
  | _ :: tr' => ring_copies tr'
  end.

(** The descriptors given to close(2). *)
Fixpoint closed_fds (tr : list event) : list Z :=
  match tr with
  | [] => []
  | EvClose fd :: tr' => fd :: closed_fds tr'
  | _ :: tr' => closed_fds tr'
  end.

(** The PCM handles given to [snd_pcm_close]. *)
Fixpoint closed_pcms (tr : list event) : list pcm_h :=
  match tr with
  | [] => []
  | EvPcmClose h _ :: tr' => h :: closed_pcms tr'
  | _ :: tr' => closed_pcms tr'
  end.

(** *** A scripted lower layer, for running the code on concrete inputs.
    The slave moves at most [sc_take] frames per call and advances the
    application pointer by what it moved; the kernel takes every byte of a
    write. *)
Record script : Type := mk_script {
  sc_allocs : nat;
  sc_take : Z;
  sc_appl_ptr : Z;
  sc_close : Z;
  sc_init : Z;
  sc_open : Z * Z
}.

Definition advance (n : Z) (s : script) : script :=
  {| sc_allocs := sc_allocs s; sc_take := sc_take s;
     sc_appl_ptr := sc_appl_ptr s + n; sc_close := sc_close s;
     sc_init := sc_init s; sc_open := sc_open s |}.

#[global] Instance scripted : PcmLayer script := {|
  SND_PCM_TYPE_FILE := 7;
  calloc := fun s =>
    match sc_allocs s with
    | O => (false, s)
    | S k => (true, {| sc_allocs := k; sc_take := sc_take s;
                       sc_appl_ptr := sc_appl_ptr s; sc_close := sc_close s;
                       sc_init := sc_init s; sc_open := sc_open s |})
    end;
  open_result := fun _ s => (sc_open s, s);
  write_accepts := fun _ count s => (count, s);
  snd_pcm_init := fun s => (sc_init s, s);
  snd_pcm_close := fun _ s => (sc_close s, s);
  snd_pcm_close_self := fun s => (0, s);
  slave_stream := fun _ _ => 0;
  slave_mode := fun _ _ => 0;
  snd_pcm_rewind := fun _ frames s =>
    (Z.min frames (sc_take s), advance (- Z.min frames (sc_take s)) s);
  snd_pcm_writei := fun _ _ size s => (Z.min size (sc_take s), s);
  snd_pcm_writen := fun _ _ size s => (Z.min size (sc_take s), s);
  snd_pcm_readi := fun _ _ size s => (Z.min size (sc_take s), s);
  snd_pcm_readn := fun _ _ size s => (Z.min size (sc_take s), s);
  snd_pcm_mmap_forward := fun _ size s =>
    (Z.min size (sc_take s), advance (Z.min size (sc_take s)) s);
  appl_ptr := sc_appl_ptr
|}.

(** A slave that moves up to [take] frames per call, application pointer at
    [appl]. *)
Definition slave_taking (take appl : Z) : script :=
  {| sc_allocs := 2; sc_take := take; sc_appl_ptr := appl; sc_close := 0;
     sc_init := 0; sc_open := (3, 0) |}.

(** A stereo 16-bit plugin over slave 1, ring of 8 frames, 4 bytes a frame. *)
Definition stereo16 (file : snd_pcm_file_t) : snd_pcm_t :=
  {| pcm_type := 7; stream := 0; mode := 0; priv := file;
     bits_per_sample := 16; bits_per_frame := 32; channels := 2; sfmt := 2;
     buffer_size := 8; bytes_per_frame := 4 |}.

(** Opened from a path: the plugin owns descriptor 3. *)
Definition to_path : snd_pcm_file_t :=
  {| slave := 1; close_slave := 1; fname := Some "out.raw"; fd := 3 |}.

(** Given descriptor 5 by the caller. *)
Definition to_fd : snd_pcm_file_t :=
  {| slave := 1; close_slave := 0; fname := None; fd := 5 |}.

(** A world in which descriptor [fd] is an open regular file at offset
    [pos]. *)
Definition boot (s : script) (fd pos : Z) : world script :=
  {| w_env := s;
     w_files := {[ fd := {| f_pos := pos; f_written := 0; f_seekable := true |} ]};
     w_trace := [] |}.

(** A world in which descriptor [fd] is the write end of a pipe. *)
Definition pipe_world (s : script) (fd : Z) : world script :=
  {| w_env := s;
     w_files := {[ fd := {| f_pos := 0; f_written := 0; f_seekable := false |} ]};
     w_trace := [] |}.

End PcmFile.

(* ===================================================================== *)
(** ** pcm/pcm_file.c: the entry point from the configuration *)
(* ===================================================================== *)
Module PcmFileConf.
Import Errno PcmFile.

(** A node of the configuration tree as [_snd_pcm_file_open] uses it: its
    id, and what [snd_config_string_get] and [snd_config_integer_get] answer
    on it ([None] when they return a negative code). *)
Record snd_config_t : Type := mk_node {
  id : string;
  as_string : option string;
  as_integer : option Z
}.

(** The layer below [_snd_pcm_file_open], on top of the one the plugin
    uses: [strdup] ([false] for NULL) and [snd_pcm_open], which returns its
    code and the handle it stored. *)
Class OpenLayer (E : Type) {L : PcmLayer E} : Type := {
  strdup : string -> E -> bool * E;
  snd_pcm_open : string -> Z -> Z -> E -> (Z * pcm_h) * E
}.

(** The conversion of the [long fd] to the [int] parameter of
    [snd_pcm_file_open] (32 bits, two's complement). *)
Definition to_int (z : Z) : Z := (z + 2 ^ 31) mod 2 ^ 32 - 2 ^ 31.

(** The [snd_config_foreach] loop of pcm_file.c:1026: the error it returns,
    or the values of [sname], [fname] and [fd] it ends with. *)
Fixpoint scan (conf : list snd_config_t) (sname fname : option string) (fd : Z)
  : Z + (option string * option string * Z) :=
  match conf with
  | [] => inr (sname, fname, fd)
  | n :: rest =>
      if String.eqb (id n) "comment" then scan rest sname fname fd
      else if String.eqb (id n) "type" then scan rest sname fname fd
      else if String.eqb (id n) "stream" then scan rest sname fname fd
      else if String.eqb (id n) "sname" then
        match as_string n with
        | Some s => scan rest (Some s) fname fd
        | None => inl (- EINVAL)
        end
      else if String.eqb (id n) "file" then
        match as_string n with
        | Some s => scan rest sname (Some s) fd
        | None =>
            match as_integer n with
            | Some i => scan rest sname fname i
            | None => inl (- EINVAL)
            end
        end
      else inl (- EINVAL)
  end.

Section Code.
Context {E : Type} {L : PcmLayer E} {O : OpenLayer E}.
Local Open Scope pcm_scope.

(** A call into the lower layer that the log of the plugin does not
    record. *)
Definition call {A : Type} (f : E -> A * E) : M E A :=
  fun w => let '(a, e) := f (w_env w) in
           Ret a {| w_env := e; w_files := w_files w; w_trace := w_trace w |}.

(** pcm_file.c:1016.  The storage of the two duplicated strings is not
    tracked; [free(sname)] has no other effect. *)
Definition _snd_pcm_file_open (name : string) (conf : list snd_config_t)
    (stream mode : Z) : M E (Z * option snd_pcm_t) :=
  match scan conf None None (-1) with
  | inl err => ret (err, None)
  | inr (sname, fname, fd) =>
      match sname with
      | None => ret (- EINVAL, None)
      | Some sname =>
          if (match fname with Some _ => false | None => true end) && (fd <? 0)
          then ret (- EINVAL, None)
          else
            got_fname <- (match fname with
                          | Some f => call (strdup f)
                          | None => ret true
                          end) ;;
            if negb got_fname then ret (- ENOMEM, None)
            else
              got_sname <- call (strdup sname) ;;
              if negb got_sname then ret (- ENOMEM, None)
              else
                opened <- call (snd_pcm_open sname stream mode) ;;
                let '(err, spcm) := opened in
                if err <? 0 then ret (err, None)
                else
                  made <- snd_pcm_file_open fname (to_int fd) spcm 1 ;;
                  let '(err, pcm) := made in
                  (if err <? 0
                   then lower (snd_pcm_close spcm) (EvPcmClose spcm) ;;; ret tt
                   else ret tt) ;;;
                  ret (err, pcm)
      end
  end.


End Code.

(** *** Reading a configuration *)

(** The keys the loop skips. *)
Definition ignored (n : snd_config_t) : bool :=
  String.eqb (id n) "comment" || String.eqb (id n) "type" ||
  String.eqb (id n) "stream".

(** An entry the loop refuses: an unknown key, an [sname] that is not a
    string, a [file] that is neither a string nor an integer. *)
Definition refused (n : snd_config_t) : bool :=
  if ignored n then false
  else if String.eqb (id n) "sname" then
    match as_string n with Some _ => false | None => true end
  else if String.eqb (id n) "file" then
    match as_string n, as_integer n with
    | None, None => true
    | _, _ => false
    end
  else true.

(** The strings of the [sname] entries, the strings of the [file] entries
    and the integers of the [file] entries that are not strings, in the
    order of the configuration. *)
Definition snames (conf : list snd_config_t) : list string :=
  omap (fun n => if String.eqb (id n) "sname" then as_string n else None) conf.

Definition fnames (conf : list snd_config_t) : list string :=
  omap (fun n => if String.eqb (id n) "file" then as_string n else None) conf.

Definition fds (conf : list snd_config_t) : list Z :=
  omap (fun n => if String.eqb (id n) "file"
                 then match as_string n with
                      | Some _ => None
                      | None => as_integer n
                      end
                 else None) conf.

(** The last element of a list, or [d] when there is none. *)
Definition last_or {A : Type} (d : A) (l : list A) : A :=
  match last l with Some x => x | None => d end.

(** *** A scripted layer: [strdup] succeeds, and only the PCM named "hw"
    opens (as handle 1); any other name gives -ENOENT. *)
#[global] Instance scripted_open : OpenLayer script := {|
  strdup := fun _ s => (true, s);
  snd_pcm_open := fun name _ _ s =>
    if String.eqb name "hw" then ((0, 1%positive), s) else ((-2, 1%positive), s)
|}.

(** A slave on which [snd_pcm_init] of the plugin fails with -EINVAL. *)
Definition init_failing : script :=
  {| sc_allocs := 2; sc_take := 8; sc_appl_ptr := 0; sc_close := 0;
     sc_init := - EINVAL; sc_open := (3, 0) |}.

(** [pcm.tee { type file; sname "hw"; file "out.raw" }] *)
Definition tee_conf : list snd_config_t :=
  [ {| id := "type"; as_string := Some "file"; as_integer := None |};
    {| id := "sname"; as_string := Some "hw"; as_integer := None |};
    {| id := "file"; as_string := Some "out.raw"; as_integer := None |} ].

(** The same with a descriptor first, a path after it and a comment. *)
Definition tee_conf_verbose : list snd_config_t :=
  [ {| id := "comment"; as_string := Some "capture"; as_integer := None |};
    {| id := "file"; as_string := None; as_integer := Some 9 |};
    {| id := "type"; as_string := Some "file"; as_integer := None |};
    {| id := "sname"; as_string := Some "hw"; as_integer := None |};
    {| id := "file"; as_string := Some "out.raw"; as_integer := None |} ].

(** A configuration with a key the plugin does not know. *)
Definition tee_conf_typo : list snd_config_t :=
  [ {| id := "sname"; as_string := Some "hw"; as_integer := None |};
    {| id := "flie"; as_string := Some "out.raw"; as_integer := None |} ].

End PcmFileConf.

(* ===================================================================== *)
(** ** Uses of the two files *)
(* ===================================================================== *)

(** A caller of rawmidi/ump.c that is done with its handles. *)
Module UmpSession.
Import Ump.

(** The calls of [snd_rawmidi_open] in a log: the slots asked for, the
    name and the mode. *)
Fixpoint raw_opens (tr : list event) : list (bool * bool * string * Z) :=
  match tr with
  | [] => []
  | EvRawmidiOpen want_in want_out name mode _ _ _ :: tr' =>
      (want_in, want_out, name, mode) :: raw_opens tr'
  | _ :: tr' => raw_opens tr'
  end.

Section Code.
Context {E : Type} {L : RawmidiLayer E}.
Local Open Scope ump_scope.


End Code.
End UmpSession.

(** The five transfer entries of pcm/pcm_file.c, by kind. *)
Module PcmFileOps.
Import PcmFile.

Inductive kind : Type := Kwritei | Kwriten | Kreadi | Kreadn | Kmmap_forward.


(** The frames of a list of ring chunks. *)
Definition frames_copied (cs : list (Z * Z)) : Z :=
  fold_right (fun c acc => snd c + acc) 0 cs.

Section Code.
Context {E : Type} {L : PcmLayer E}.
Local Open Scope pcm_scope.

(** The entry of the fast-ops table (pcm_file.c:953) for a kind.  [buffer]
    is the buffer or the array of buffers; the mmap entry has none. *)
Definition transfer (fuel : nat) (pcm : snd_pcm_t) (k : kind) (buffer size : Z)
  : M E Z :=
  match k with
  | Kwritei => snd_pcm_file_writei pcm buffer size
  | Kwriten => snd_pcm_file_writen pcm buffer size
  | Kreadi => snd_pcm_file_readi pcm buffer size
  | Kreadn => snd_pcm_file_readn pcm buffer size
  | Kmmap_forward => snd_pcm_file_mmap_forward fuel pcm size
  end.

(** The slave operation each entry calls first (for readn, the slave's
    writen: pcm_file.c:817). *)
Definition slave_call (pcm : snd_pcm_t) (k : kind) (buffer size : Z)
  : E -> Z * E :=
  match k with
  | Kwritei => snd_pcm_writei (slave (priv pcm)) buffer size
  | Kwriten => snd_pcm_writen (slave (priv pcm)) buffer size
  | Kreadi => snd_pcm_readi (slave (priv pcm)) buffer size
  | Kreadn => snd_pcm_writen (slave (priv pcm)) buffer size
  | Kmmap_forward => snd_pcm_mmap_forward (slave (priv pcm)) size
  end.

Definition slave_event (pcm : snd_pcm_t) (k : kind) (buffer size r : Z) : event :=
  match k with
  | Kwritei => EvWritei (slave (priv pcm)) buffer size r
  | Kwriten => EvWriten (slave (priv pcm)) buffer size r
  | Kreadi => EvReadi (slave (priv pcm)) buffer size r
  | Kreadn => EvWriten (slave (priv pcm)) buffer size r
  | Kmmap_forward => EvMmapForward (slave (priv pcm)) size r
  end.

(** A sequence of transfers, each a kind, a buffer and a size. *)
Fixpoint transfers (fuel : nat) (pcm : snd_pcm_t) (ops : list (kind * Z * Z))
  : M E (list Z) :=
  match ops with
  | [] => ret []
  | (k, buffer, size) :: ops' =>
      n <- transfer fuel pcm k buffer size ;;
      ns <- transfers fuel pcm ops' ;;
      ret (n :: ns)
  end.

(** A write of [size] frames and then a rewind of [frames]. *)
Definition write_then_rewind (pcm : snd_pcm_t) (buffer size frames : Z)
  : M E (Z * Z) :=
  n <- snd_pcm_file_writei pcm buffer size ;;
  k <- snd_pcm_file_rewind pcm frames ;;
  ret (n, k).

End Code.

(** The scripted layer with a slave that reports one frame more than it
    was asked to forward. *)
Definition overreporting : PcmLayer script := {|
  SND_PCM_TYPE_FILE := 7;
  calloc := @calloc script scripted;
  open_result := @open_result script scripted;
  write_accepts := @write_accepts script scripted;
  snd_pcm_init := @snd_pcm_init script scripted;
  snd_pcm_close := @snd_pcm_close script scripted;
  snd_pcm_close_self := @snd_pcm_close_self script scripted;
  slave_stream := @slave_stream script scripted;
  slave_mode := @slave_mode script scripted;
  snd_pcm_rewind := @snd_pcm_rewind script scripted;
  snd_pcm_writei := @snd_pcm_writei script scripted;
  snd_pcm_writen := @snd_pcm_writen script scripted;
  snd_pcm_readi := @snd_pcm_readi script scripted;
  snd_pcm_readn := @snd_pcm_readn script scripted;
  snd_pcm_mmap_forward := fun _ size s => (size + 1, s);
  appl_ptr := @appl_ptr script scripted
|}.

End PcmFileOps.

(* ===================================================================== *)
(** ** Properties of rawmidi/ump.c *)
(* ===================================================================== *)
Section UmpProperties.
Import Ump.
Context {E : Type} {L : RawmidiLayer E}.

(** What a logged call into the lower layer leaves behind. *)
Lemma ump_lower_run {A : Type} (f : E -> A * E) (ev : A -> event) (w : world E) :
  lower f ev w =
    Some (fst (f (w_env w)),
          {| w_env := snd (f (w_env w)); w_heap := w_heap w;
             w_trace := w_trace w ++ [ev (fst (f (w_env w)))] |}).
Proof. unfold lower. destruct (f (w_env w)); reflexivity. Qed.

Lemma ump_deref_run (w : world E) (p : ptr) (u : snd_ump_t) :
  w_heap w !! p = Some u -> deref p w = Some (u, w).
Proof. intros H. unfold deref. rewrite H. reflexivity. Qed.

(** *** Running snd_ump_open *)

Lemma fresh_heap (h : gmap positive snd_ump_t) : h !! fresh (dom h) = None.
Proof. apply not_elem_of_dom, is_fresh. Qed.

(** Names the address [calloc] hands out and keeps what is known of it:
    it is not in the heap and differs from the ones handed out before. *)
Ltac name_fresh :=
  match goal with
  | |- context [fresh (dom ?h)] =>
      let Hf := fresh "Hf" in
      let p := fresh "p" in
      pose proof (fresh_heap h) as Hf;
      generalize dependent (fresh (dom h)); intros p Hf;
      repeat (apply lookup_insert_None in Hf; destruct Hf as [Hf ?])
  end.

(** Case analysis on what the lower layer answers. *)
Ltac oracle :=
  match goal with
  | |- context [calloc ?e] =>
      let e' := fresh "e" in destruct (calloc e) as [[|] e'] eqn:?
  | |- context [snd_rawmidi_open ?a ?b ?c ?d ?e] =>
      let e' := fresh "e" in
      destruct (snd_rawmidi_open a b c d e) as [[[? ?] ?] e'] eqn:?
  | |- context [snd_rawmidi_info ?h ?e] =>
      let e' := fresh "e" in
      destruct (snd_rawmidi_info h e) as [[? ?] e'] eqn:?
  | |- context [snd_rawmidi_close ?h ?e] =>
      let e' := fresh "e" in
      destruct (snd_rawmidi_close h e) as [? e'] eqn:?
  end.

(** Case analysis on the tests of the code. *)
Ltac branch :=
  match goal with
  | |- context [if ?c <? 0 then _ else _] => destruct (Z.ltb_spec c 0)
  | |- context [if negb (truthy ?x) then _ else _] => destruct (truthy x) eqn:?
  | |- context [match ?h with Some _ => _ | None => _ end] =>
      is_var h; destruct h
  end.

Ltac exec :=
  repeat first
    [ progress cbn
    | name_fresh
    | oracle
    | branch
    | progress simplify_map_eq ].

Ltac heap_eq :=
  apply map_eq; intros ?; rewrite ?lookup_delete, ?lookup_insert;
  repeat case_decide; subst; congruence.

(** Splits on the position of an event in a concrete log. *)
Ltac in_cases :=
  match goal with
  | Hin : In _ _ |- _ =>
      cbn in Hin;
      repeat (destruct Hin as [Hin|Hin];
              [try discriminate Hin;
               try (injection Hin; intros; subst;
                    first [reflexivity | lia | congruence])|]);
      try contradiction
  end.

(** Every path through snd_ump_open, at once: the call returns; what it
    logged; what an error return leaves behind; what a success hands over;
    and which code each failing step leads to. *)
Lemma snd_ump_open_run (w : world E) (inputp outputp : bool) (name : string)
    (mode : Z) :
  exists err a b w' tr,
    snd_ump_open inputp outputp name mode w = Some ((err, a, b), w') /\
    w_trace w' = w_trace w ++ tr /\
    (err < 0 ->
       closed_handles tr = acquired_handles tr /\
       freed tr = allocated tr /\
       w_heap w' = w_heap w /\ a = None /\ b = None) /\
    (0 <= err ->
       err = 0 /\
       closed_handles tr = [] /\ freed tr = [] /\
       acquired_handles tr = held w' a ++ held w' b /\
       allocated tr = handles a ++ handles b /\
       forall p, In p (handles a ++ handles b) ->
         exists u e, w_heap w' !! p = Some u /\
                     In (EvRawmidiInfo (rawmidi u) e (flags u)) tr /\
                     0 <= e /\
                     advertises_ump (flags u) = true) /\
    (forall h e fl, In (EvRawmidiInfo h e fl) tr -> 0 <= e ->
       advertises_ump fl = false -> err = - Errno.EINVAL) /\
    (In (EvCalloc None) tr -> err = - Errno.ENOMEM) /\
    (forall want_in want_out nm md e hin hout,
       In (EvRawmidiOpen want_in want_out nm md e hin hout) tr -> e < 0 ->
       err = e) /\
    (forall h e fl, In (EvRawmidiInfo h e fl) tr -> e < 0 -> err = e).
Proof.
  unfold snd_ump_open, snd_ump_open_error, release, get_rawmidi_flags,
    calloc_ump, update, deref, free, lower, bind, ret, advertises_ump.
  destruct inputp, outputp.
  all: exec.
  all: do 5 eexists; (split; [reflexivity|]).
  all: (split; [cbn; rewrite <- ?app_assoc; cbn;
                first [reflexivity | symmetry; apply app_nil_r]|]).
  all: split; [|split].
  all: lazymatch goal with
       | |- _ < 0 -> _ =>
           intros Herr;
           try (exfalso; unfold Errno.EINVAL, Errno.ENOMEM in *; lia);
           cbn; simplify_map_eq; rewrite ?app_nil_r;
           repeat split; try reflexivity; try heap_eq
       | |- 0 <= _ -> _ =>
           intros Herr;
           try (exfalso; unfold Errno.EINVAL, Errno.ENOMEM in *; lia);
           cbn; simplify_map_eq; rewrite ?app_nil_r;
           repeat split; try reflexivity;
           try (intros q Hq; cbn in Hq;
                repeat (destruct Hq as [<-|Hq]); try contradiction;
                (eexists _, _; split; [simplify_map_eq; reflexivity|]);
                cbn; (split; [eauto 10|]); split; assumption)
       | |- _ =>
           repeat split; intros; in_cases
       end.
Qed.

(** C7: a call of snd_ump_open with both slot pointers NULL returns -EINVAL
    and opens nothing: no allocation, no call into the raw-MIDI layer, the
    world is the one it started from. *)
Theorem snd_ump_open_without_slots (w : world E) (name : string) (mode : Z) :
  snd_ump_open false false name mode w = Some ((- Errno.EINVAL, None, None), w).
Proof. reflexivity. Qed.

(** C2: on a handle marked as input, snd_ump_write returns -EINVAL and the
    raw-MIDI layer is not called (the world is unchanged); on a handle not
    marked as input, snd_ump_read and snd_ump_tread do the same; in the other
    cases each of the three returns what the wrapped raw-MIDI operation
    returns, called once on the wrapped handle with the caller's arguments. *)
Theorem snd_ump_direction_guard (w : world E) (ump : ptr) (u : snd_ump_t)
    (tstamp buffer size : Z) :
  w_heap w !! ump = Some u ->
  (is_input u <> 0 ->
     snd_ump_write ump buffer size w = Some (- Errno.EINVAL, w) /\
     snd_ump_read ump buffer size w =
       Some (fst (snd_rawmidi_read (rawmidi u) buffer size (w_env w)),
             {| w_env := snd (snd_rawmidi_read (rawmidi u) buffer size (w_env w));
                w_heap := w_heap w;
                w_trace := w_trace w ++
                  [EvRawmidiRead (rawmidi u) buffer size
                     (fst (snd_rawmidi_read (rawmidi u) buffer size (w_env w)))] |}) /\
     snd_ump_tread ump tstamp buffer size w =
       Some (fst (snd_rawmidi_tread (rawmidi u) tstamp buffer size (w_env w)),
             {| w_env := snd (snd_rawmidi_tread (rawmidi u) tstamp buffer size (w_env w));
                w_heap := w_heap w;
                w_trace := w_trace w ++
                  [EvRawmidiTread (rawmidi u) tstamp buffer size
                     (fst (snd_rawmidi_tread (rawmidi u) tstamp buffer size (w_env w)))] |})) /\
  (is_input u = 0 ->
     snd_ump_read ump buffer size w = Some (- Errno.EINVAL, w) /\
     snd_ump_tread ump tstamp buffer size w = Some (- Errno.EINVAL, w) /\
     snd_ump_write ump buffer size w =
       Some (fst (snd_rawmidi_write (rawmidi u) buffer size (w_env w)),
             {| w_env := snd (snd_rawmidi_write (rawmidi u) buffer size (w_env w));
                w_heap := w_heap w;
                w_trace := w_trace w ++
                  [EvRawmidiWrite (rawmidi u) buffer size
                     (fst (snd_rawmidi_write (rawmidi u) buffer size (w_env w)))] |})).
Proof.
  intros Hu.
  unfold snd_ump_write, snd_ump_read, snd_ump_tread, bind.
  rewrite (ump_deref_run _ _ _ Hu). unfold truthy.
  split; intros Hdir.
  - apply Z.eqb_neq in Hdir. rewrite Hdir. cbn [negb].
    rewrite !ump_lower_run. auto.
  - apply Z.eqb_eq in Hdir. rewrite Hdir. cbn [negb].
    rewrite !ump_lower_run. auto.
Qed.


(** C8, as amended: in every call of snd_ump_open in which an info query
    answers without error and with flags that lack the UMP bit, the call
    returns -EINVAL; a call in which an allocation fails returns -ENOMEM,
    and one in which the raw-MIDI open or an info query fails returns the
    code of that step; every call that returns a negative code hands no
    handle to the caller; and after a successful call each returned handle
    caches the flags the info query on its raw-MIDI handle reported, which
    carry the UMP bit. *)
Theorem snd_ump_open_requires_ump
    (w : world E) (inputp outputp : bool) (name : string) (mode : Z)
    (err : Z) (a b : option ptr) (w' : world E) :
  snd_ump_open inputp outputp name mode w = Some ((err, a, b), w') ->
  exists tr,
    w_trace w' = w_trace w ++ tr /\
    (forall h e fl, In (EvRawmidiInfo h e fl) tr -> 0 <= e ->
       advertises_ump fl = false -> err = - Errno.EINVAL) /\
    (In (EvCalloc None) tr -> err = - Errno.ENOMEM) /\
    (forall want_in want_out nm md e hin hout,
       In (EvRawmidiOpen want_in want_out nm md e hin hout) tr -> e < 0 ->
       err = e) /\
    (forall h e fl, In (EvRawmidiInfo h e fl) tr -> e < 0 -> err = e) /\
    (err < 0 -> a = None /\ b = None) /\
    (0 <= err ->
       forall p, In p (handles a ++ handles b) ->
         exists u e, w_heap w' !! p = Some u /\
                     In (EvRawmidiInfo (rawmidi u) e (flags u)) tr /\
                     0 <= e /\
                     advertises_ump (flags u) = true).
Proof.
  intros Hrun.
  destruct (snd_ump_open_run w inputp outputp name mode)
    as (err' & a' & b' & w'' & tr & Hrun' & Htr & Herr & Hok
        & Hinfo & Hmem & Hopen & Hquery).
  rewrite Hrun in Hrun'. injection Hrun' as <- <- <- <-.
  exists tr. repeat (split; [assumption|]). split.
  - intros Hneg. apply Herr in Hneg. tauto.
  - intros Hpos. apply Hok in Hpos. tauto.
Qed.

(** *** Sessions: open, use, close *)
Import UmpSession.

(** What a call of snd_ump_open asks of the raw-MIDI layer, and what a
    successful one leaves in the heap. *)
Lemma snd_ump_open_shape (w : world E) (inputp outputp : bool) (name : string)
    (mode : Z) :
  exists err a b w' tr,
    snd_ump_open inputp outputp name mode w = Some ((err, a, b), w') /\
    w_trace w' = w_trace w ++ tr /\
    (raw_opens tr = [] \/
     raw_opens tr = [(inputp, outputp, name, Z.lor mode _SND_RAWMIDI_OPEN_UMP)]) /\
    (0 <= err ->
       is_null a = negb inputp /\ is_null b = negb outputp /\
       raw_opens tr = [(inputp, outputp, name, Z.lor mode _SND_RAWMIDI_OPEN_UMP)] /\
       (forall p, a = Some p ->
          w_heap w !! p = None /\
          exists u, w_heap w' !! p = Some u /\ is_input u = 1) /\
       (forall p, b = Some p ->
          w_heap w !! p = None /\
          exists u, w_heap w' !! p = Some u /\ is_input u = 0) /\
       (forall p q, a = Some p -> b = Some q -> p <> q) /\
       (forall k, ~ In k (handles a ++ handles b) ->
          w_heap w' !! k = w_heap w !! k)).
Proof.
  unfold snd_ump_open, snd_ump_open_error, release, get_rawmidi_flags,
    calloc_ump, update, deref, free, lower, bind, ret.
  destruct inputp, outputp.
  all: exec.
  all: do 5 eexists; (split; [reflexivity|]).
  all: (split; [cbn; rewrite <- ?app_assoc; cbn;
                first [reflexivity | symmetry; apply app_nil_r]|]).
  all: split; [cbn; auto|].
  all: intros Herr; try (exfalso; unfold Errno.EINVAL, Errno.ENOMEM in *; lia).
  all: cbn; (split; [reflexivity|]); (split; [reflexivity|]);
       (split; [reflexivity|]).
  all: split;
    [intros q Hq;
     first [discriminate Hq
           | injection Hq as <-; split;
             [assumption
             | eexists; split; [simplify_map_eq; reflexivity | reflexivity]]]|].
  all: split;
    [intros q Hq;
     first [discriminate Hq
           | injection Hq as <-; split;
             [assumption
             | eexists; split; [simplify_map_eq; reflexivity | reflexivity]]]|].
  all: split; [intros q1 q2 Hq1 Hq2;
               first [discriminate Hq1 | discriminate Hq2
                     | injection Hq1 as <-; injection Hq2 as <-; assumption]|].
  all: intros k Hk; cbn in Hk; rewrite ?lookup_insert;
       repeat case_decide; subst; tauto.
Qed.

Lemma closed_handles_app (a b : list event) :
  closed_handles (a ++ b) = closed_handles a ++ closed_handles b.
Proof.
  induction a as [|e a IH]; [reflexivity|].
  destruct e; cbn; rewrite ?IH, <- ?app_assoc; reflexivity.
Qed.

Lemma freed_app (a b : list event) : freed (a ++ b) = freed a ++ freed b.
Proof.
  induction a as [|e a IH]; [reflexivity|].
  destruct e; cbn; rewrite ?IH; reflexivity.
Qed.



(** X1: after a successful snd_ump_open the handle left in the input slot
    reads and does not write, and the handle left in the output slot writes
    and does not read: the refused call returns -EINVAL and leaves the world
    as it is, the other reaches the raw-MIDI layer. *)
Theorem snd_ump_open_directions (w : world E) (inputp outputp : bool)
    (name : string) (mode : Z) (err : Z) (a b : option ptr) (w' : world E)
    (tstamp buffer size : Z) :
  snd_ump_open inputp outputp name mode w = Some ((err, a, b), w') ->
  0 <= err ->
  (forall p, a = Some p ->
     snd_ump_write p buffer size w' = Some (- Errno.EINVAL, w') /\
     exists r w'' h,
       snd_ump_read p buffer size w' = Some (r, w'') /\
       w_trace w'' = w_trace w' ++ [EvRawmidiRead h buffer size r]) /\
  (forall q, b = Some q ->
     snd_ump_read q buffer size w' = Some (- Errno.EINVAL, w') /\
     snd_ump_tread q tstamp buffer size w' = Some (- Errno.EINVAL, w') /\
     exists r w'' h,
       snd_ump_write q buffer size w' = Some (r, w'') /\
       w_trace w'' = w_trace w' ++ [EvRawmidiWrite h buffer size r]).
Proof.
  intros Hrun Herr.
  destruct (snd_ump_open_shape w inputp outputp name mode)
    as (err' & a' & b' & w'' & tr & Hrun' & _ & _ & Hok).
  rewrite Hrun in Hrun'. injection Hrun' as <- <- <- <-.
  destruct (Hok Herr) as (_ & _ & _ & Hin & Hout & _).
  split.
  - intros p Hp. destruct (Hin p Hp) as (_ & u & Hu & Hdir).
    unfold snd_ump_write, snd_ump_read, bind.
    rewrite (ump_deref_run _ _ _ Hu), Hdir. cbn.
    split; [reflexivity|]. rewrite ump_lower_run.
    eexists _, _, _. split; reflexivity.
  - intros q Hq. destruct (Hout q Hq) as (_ & u & Hu & Hdir).
    unfold snd_ump_write, snd_ump_read, snd_ump_tread, bind.
    rewrite (ump_deref_run _ _ _ Hu), Hdir. cbn.
    split; [reflexivity|]. split; [reflexivity|]. rewrite ump_lower_run.
    eexists _, _, _. split; reflexivity.
Qed.


Lemma lor_keeps_bits (m f : Z) :
  Z.land (Z.lor m f) f = f /\ Z.land (Z.lor m f) m = m.
Proof.
  split; apply Z.bits_inj'; intros n _;
    rewrite Z.land_spec, Z.lor_spec;
    destruct (Z.testbit m n), (Z.testbit f n); reflexivity.
Qed.

(** X3: snd_ump_open calls snd_rawmidi_open at most once, and exactly once
    when it succeeds: for the slots the caller passed, with the caller's
    name, and with a mode that holds every bit of the caller's mode and
    every bit of the internal UMP open flag. *)
Theorem snd_ump_open_raw_open (w : world E) (inputp outputp : bool)
    (name : string) (mode : Z) (err : Z) (a b : option ptr) (w' : world E) :
  snd_ump_open inputp outputp name mode w = Some ((err, a, b), w') ->
  exists tr,
    w_trace w' = w_trace w ++ tr /\
    (length (raw_opens tr) <= 1)%nat /\
    (0 <= err -> length (raw_opens tr) = 1%nat) /\
    (forall i o nm m, In (i, o, nm, m) (raw_opens tr) ->
       i = inputp /\ o = outputp /\ nm = name /\
       Z.land m _SND_RAWMIDI_OPEN_UMP = _SND_RAWMIDI_OPEN_UMP /\
       Z.land m mode = mode).
Proof.
  intros Hrun.
  destruct (snd_ump_open_shape w inputp outputp name mode)
    as (err' & a' & b' & w1 & tr & Hrun' & Htr & Hopens & Hok).
  rewrite Hrun in Hrun'. injection Hrun' as <- <- <- <-.
  exists tr. split; [exact Htr|]. split; [|split].
  - destruct Hopens as [->| ->]; cbn; lia.
  - intros Herr. destruct (Hok Herr) as (_ & _ & -> & _). reflexivity.
  - intros i o nm m Hin.
    destruct Hopens as [Ho|Ho]; rewrite Ho in Hin; cbn in Hin; [contradiction|].
    destruct Hin as [Heq|[]]. injection Heq as <- <- <- <-.
    destruct (lor_keeps_bits mode _SND_RAWMIDI_OPEN_UMP). auto.
Qed.

End UmpProperties.

(** A duplex open of the legacy device: refused with -EINVAL. *)
Lemma snd_ump_open_requires_ump_witness :
  Ump.snd_ump_open true true "hw" 0 (Ump.boot Ump.legacy_device) =
    Some ((- Errno.EINVAL, None, None), Ump.after_legacy_open) /\
  exists tr,
    Ump.w_trace Ump.after_legacy_open = Ump.w_trace (Ump.boot Ump.legacy_device) ++ tr /\
    (forall h e fl, In (Ump.EvRawmidiInfo h e fl) tr -> 0 <= e ->
       @Ump.advertises_ump _ Ump.scripted fl = false -> - Errno.EINVAL = - Errno.EINVAL).
Proof.
  split; [vm_compute; reflexivity|].
  destruct (snd_ump_open_requires_ump (Ump.boot Ump.legacy_device) true true "hw" 0
              (- Errno.EINVAL) None None Ump.after_legacy_open)
    as (tr & Htr & Hinfo & _).
  - vm_compute. reflexivity.
  - exists tr. split; [exact Htr | exact Hinfo].
Defined.

(** C8 as stated fails: the legacy device lacks the UMP bit, the allocator
    is out of memory, and snd_ump_open returns -ENOMEM, not -EINVAL. *)
Lemma snd_ump_open_legacy_out_of_memory :
  @Ump.advertises_ump _ Ump.scripted (Ump.sc_flags Ump.legacy_device_no_memory) = false /\
  fst <$> Ump.snd_ump_open true false "hw" 0 (Ump.boot Ump.legacy_device_no_memory) =
    Some (- Errno.ENOMEM, None, None) /\
  - Errno.ENOMEM <> - Errno.EINVAL.
Proof. vm_compute. repeat split; congruence. Qed.

(** A write on the input handle of the opened world: refused. *)
Lemma snd_ump_direction_guard_witness :
  Ump.w_heap Ump.opened !! 1%positive = Some Ump.input_handle /\
  Ump.snd_ump_write 1 0 16 Ump.opened = Some (- Errno.EINVAL, Ump.opened).
Proof.
  split; [reflexivity|].
  apply (snd_ump_direction_guard Ump.opened 1 Ump.input_handle 0 0 16 eq_refl).
  discriminate.
Defined.


(* ===================================================================== *)
(** ** Properties of pcm/pcm_file.c *)
(* ===================================================================== *)
Section PcmFileProperties.
Import PcmFile.
Context {E : Type} {L : PcmLayer E}.
Local Open Scope pcm_scope.

Lemma bind_Ret {A B : Type} (m : M E A) (k : A -> M E B) (w w' : world E) (a : A) :
  m w = Ret a w' -> bind m k w = k a w'.
Proof. intros H. unfold bind. rewrite H. reflexivity. Qed.

Lemma bind_Abort {A B : Type} (m : M E A) (k : A -> M E B) (w : world E) :
  m w = Abort -> bind m k w = Abort.
Proof. intros H. unfold bind. rewrite H. reflexivity. Qed.

(** The write-and-assert pair of pcm_file.c:773 and its siblings: the
    process is killed, or write(2) took exactly [bytes]. *)
Lemma checked_write_run (pcm : snd_pcm_t) (bytes : Z) (w : world E) :
  (r <- sys_write (fd (priv pcm)) bytes ;; assert (r =? bytes)) w = Abort \/
  exists w',
    (r <- sys_write (fd (priv pcm)) bytes ;; assert (r =? bytes)) w = Ret tt w' /\
    w_trace w' = w_trace w ++ [EvWrite (fd (priv pcm)) bytes bytes] /\
    mirrored pcm w' = mirrored pcm w + Z.max 0 bytes.
Proof.
  unfold bind, sys_write, assert, mirrored.
  destruct (w_files w !! fd (priv pcm)) as [f|] eqn:Hf.
  - destruct (write_accepts (fd (priv pcm)) bytes (w_env w)) as [r e] eqn:Hr.
    destruct (Z.eqb_spec r bytes) as [->|Hne]; [right|left; reflexivity].
    eexists. split; [reflexivity|]. cbn. split; [reflexivity|].
    rewrite lookup_insert_eq.
    destruct (Z.ltb_spec 0 bytes); cbn; lia.
  - destruct (Z.eqb_spec (-1) bytes) as [<-|Hne]; [right|left; reflexivity].
    eexists. split; [reflexivity|]. cbn. rewrite Hf. auto.
Qed.

Lemma write_areas_run (pcm : snd_pcm_t) (src : areas) (ofs frames : Z)
    (w : world E) :
  snd_pcm_file_write_areas pcm src ofs frames w = Abort \/
  exists w',
    snd_pcm_file_write_areas pcm src ofs frames w = Ret tt w' /\
    w_trace w' = w_trace w ++
      [EvAreasCopy src ofs (buf_areas pcm) (channels pcm) frames (sfmt pcm);
       EvWrite (fd (priv pcm)) (snd_pcm_frames_to_bytes pcm frames)
               (snd_pcm_frames_to_bytes pcm frames)] /\
    mirrored pcm w' = mirrored pcm w + Z.max 0 (snd_pcm_frames_to_bytes pcm frames).
Proof.
  unfold snd_pcm_file_write_areas. cbv zeta.
  unfold bind at 1. unfold emit at 1.
  match goal with
  | |- context [bind (sys_write ?fd ?b) ?k ?w0] =>
      destruct (checked_write_run pcm b w0) as [Hab | (w' & Hrun & Htr & Hm)]
  end.
  - left. exact Hab.
  - right. exists w'. split; [exact Hrun|]. split.
    + rewrite Htr. cbn. rewrite <- app_assoc. reflexivity.
    + rewrite Hm. reflexivity.
Qed.

Lemma mmap_forward_loop_step (fuel : nat) (pcm : snd_pcm_t) (size n ofs xfer : Z) :
  mmap_forward_loop (S fuel) pcm size n ofs xfer =
    if xfer <? n then
      let frames := size_t (size - xfer) in
      let cont := size_t (buffer_size pcm - ofs) in
      let frames := if cont <? frames then cont else frames in
      snd_pcm_file_write_areas pcm MmapAreas ofs frames ;;;
      let ofs := size_t (ofs + frames) in
      let ofs := if ofs =? buffer_size pcm then 0 else ofs in
      mmap_forward_loop fuel pcm size n ofs (size_t (xfer + frames))
    else ret tt.
Proof. reflexivity. Qed.

Lemma mmap_forward_loop_done (fuel : nat) (pcm : snd_pcm_t) (size n ofs xfer : Z) :
  n <= xfer -> mmap_forward_loop fuel pcm size n ofs xfer = ret tt.
Proof.
  intros H. destruct fuel; cbn [mmap_forward_loop];
    destruct (Z.ltb_spec xfer n); try lia; reflexivity.
Qed.

Lemma mmap_forward_loop_run (k : nat) (pcm : snd_pcm_t) (size n ofs : Z)
    (w : world E) :
  0 <= ofs < buffer_size pcm -> buffer_size pcm < 2 ^ 64 ->
  0 < n <= size -> size < 2 ^ 64 -> n <= buffer_size pcm ->
  mmap_forward_loop (S (S k)) pcm size n ofs 0 w = Abort \/
  exists w' tr,
    mmap_forward_loop (S (S k)) pcm size n ofs 0 w = Ret tt w' /\
    w_trace w' = w_trace w ++ tr /\
    ring_copies tr = chunks pcm size n ofs /\
    writes tr = List.map (fun c => (fd (priv pcm), snd_pcm_frames_to_bytes pcm (snd c)))
                         (chunks pcm size n ofs) /\
    mirrored pcm w' =
      mirrored pcm w +
      fold_right (fun c acc => Z.max 0 (snd_pcm_frames_to_bytes pcm (snd c)) + acc)
                 0 (chunks pcm size n ofs).
Proof.
  intros Hofs HB Hn Hsize HnB.
  rewrite mmap_forward_loop_step.
  destruct (Z.ltb_spec 0 n) as [_|]; [|lia]. cbv zeta.
  unfold size_t. rewrite Z.sub_0_r, Z.add_0_l.
  rewrite (Z.mod_small size) by lia.
  rewrite (Z.mod_small (buffer_size pcm - ofs)) by lia.
  unfold chunks.
  destruct (Z.ltb_spec (buffer_size pcm - ofs) size) as [Hcont|Hcont].
  - (* the ring ends before the request does *)
    rewrite (Z.mod_small (buffer_size pcm - ofs)) by lia.
    replace (ofs + (buffer_size pcm - ofs)) with (buffer_size pcm) by lia.
    rewrite (Z.mod_small (buffer_size pcm)) by lia.
    rewrite Z.eqb_refl.
    destruct (write_areas_run pcm MmapAreas ofs (buffer_size pcm - ofs) w)
      as [Hab | (w1 & Hrun1 & Htr1 & Hm1)];
      [left; exact (bind_Abort _ _ _ Hab)|].
    rewrite !(bind_Ret _ _ _ _ _ Hrun1).
    destruct (Z.leb_spec (ofs + n) (buffer_size pcm)) as [Hfit|Hcross].
    + rewrite mmap_forward_loop_done by lia.
      right. eexists w1, _. split; [reflexivity|]. split; [exact Htr1|].
      cbn. rewrite Z.min_r by lia. repeat split. rewrite Hm1. lia.
    + rewrite mmap_forward_loop_step.
      destruct (Z.ltb_spec (buffer_size pcm - ofs) n) as [_|]; [|lia]. cbv zeta.
      unfold size_t. rewrite Z.sub_0_r, Z.add_0_l.
      rewrite (Z.mod_small (size - (buffer_size pcm - ofs))) by lia.
      rewrite (Z.mod_small (buffer_size pcm)) by lia.
      set (frames2 := if buffer_size pcm <? size - (buffer_size pcm - ofs)
                      then buffer_size pcm else size - (buffer_size pcm - ofs)).
      assert (Hf2 : frames2 = Z.min (size - (buffer_size pcm - ofs)) (buffer_size pcm)).
      { unfold frames2.
        destruct (Z.ltb_spec (buffer_size pcm) (size - (buffer_size pcm - ofs))); lia. }
      destruct (write_areas_run pcm MmapAreas 0 frames2 w1)
        as [Hab | (w2 & Hrun2 & Htr2 & Hm2)];
        [left; exact (bind_Abort _ _ _ Hab)|].
      rewrite !(bind_Ret _ _ _ _ _ Hrun2).
      rewrite mmap_forward_loop_done.
      2:{ rewrite Z.mod_small by lia. lia. }
      right. eexists w2, _. split; [reflexivity|]. split.
      { rewrite Htr2, Htr1, <- app_assoc. reflexivity. }
      cbn. rewrite <- Hf2. repeat split. rewrite Hm2, Hm1. lia.
  - (* the request fits before the end of the ring *)
    rewrite (Z.mod_small size) by lia.
    destruct (write_areas_run pcm MmapAreas ofs size w)
      as [Hab | (w1 & Hrun1 & Htr1 & Hm1)];
      [left; exact (bind_Abort _ _ _ Hab)|].
    rewrite !(bind_Ret _ _ _ _ _ Hrun1).
    rewrite mmap_forward_loop_done by lia.
    destruct (Z.leb_spec (ofs + n) (buffer_size pcm)) as [Hfit|Hcross]; [|lia].
    right. eexists w1, _. split; [reflexivity|]. split; [exact Htr1|].
    cbn. rewrite Z.min_l by lia. repeat split. rewrite Hm1. lia.
Qed.


Lemma pcm_lower_run {A : Type} (f : E -> A * E) (ev : A -> event) (w : world E) :
  lower f ev w =
    Ret (fst (f (w_env w)))
        {| w_env := snd (f (w_env w)); w_files := w_files w;
           w_trace := w_trace w ++ [ev (fst (f (w_env w)))] |}.
Proof. unfold lower. destruct (f (w_env w)); reflexivity. Qed.





(** *** The interleaved and the non-interleaved transfers *)

(** The shape the four transfer functions share: the slave call, then the
    mirroring when the slave moved frames. *)
Lemma transfer_shape (f : E -> Z * E) (ev : Z -> event) (body : Z -> M E unit)
    (w : world E) :
  (n <- lower f ev ;; (if 0 <? n then body n else ret tt) ;;; ret n) w =
    let n := fst (f (w_env w)) in
    let w0 := {| w_env := snd (f (w_env w)); w_files := w_files w;
                 w_trace := w_trace w ++ [ev n] |} in
    if 0 <? n then (body n ;;; ret n) w0 else Ret n w0.
Proof.
  unfold bind at 1. rewrite pcm_lower_run. cbv zeta.
  destruct (0 <? fst (f (w_env w))); reflexivity.
Qed.

Lemma snd_pcm_file_writei_run (pcm : snd_pcm_t) (buffer size : Z) (w : world E) :
  let n := fst (snd_pcm_writei (slave (priv pcm)) buffer size (w_env w)) in
  snd_pcm_file_writei pcm buffer size w = Abort \/
  exists w' tr,
    snd_pcm_file_writei pcm buffer size w = Ret n w' /\
    w_trace w' = w_trace w ++ EvWritei (slave (priv pcm)) buffer size n :: tr /\
    writes tr = (if 0 <? n then [(fd (priv pcm), snd_pcm_frames_to_bytes pcm n)] else []) /\
    mirrored pcm w' =
      mirrored pcm w + (if 0 <? n then Z.max 0 (snd_pcm_frames_to_bytes pcm n) else 0).
Proof.
  intros n. unfold snd_pcm_file_writei. cbv zeta.
  rewrite transfer_shape. cbv zeta. fold n.
  set (w0 := {| w_env := _; w_files := _; w_trace := _ |}).
  destruct (0 <? n).
  - destruct (checked_write_run pcm (snd_pcm_frames_to_bytes pcm n) w0)
      as [Hab | (w' & Hrun & Htr & Hm)].
    + left. apply bind_Abort. exact Hab.
    + right. exists w', [EvWrite (fd (priv pcm)) (snd_pcm_frames_to_bytes pcm n)
                                  (snd_pcm_frames_to_bytes pcm n)].
      split; [etransitivity; [apply bind_Ret; exact Hrun | reflexivity]|].
      split; [rewrite Htr; cbn; rewrite <- app_assoc; reflexivity|].
      split; [reflexivity|]. rewrite Hm. reflexivity.
  - right. exists w0, []. repeat split. unfold mirrored. cbn. lia.
Qed.

Lemma snd_pcm_file_readi_run (pcm : snd_pcm_t) (buffer size : Z) (w : world E) :
  let n := fst (snd_pcm_readi (slave (priv pcm)) buffer size (w_env w)) in
  snd_pcm_file_readi pcm buffer size w = Abort \/
  exists w' tr,
    snd_pcm_file_readi pcm buffer size w = Ret n w' /\
    w_trace w' = w_trace w ++ EvReadi (slave (priv pcm)) buffer size n :: tr /\
    writes tr = (if 0 <? n then [(fd (priv pcm), snd_pcm_frames_to_bytes pcm n)] else []) /\
    mirrored pcm w' =
      mirrored pcm w + (if 0 <? n then Z.max 0 (snd_pcm_frames_to_bytes pcm n) else 0).
Proof.
  intros n. unfold snd_pcm_file_readi. cbv zeta.
  rewrite transfer_shape. cbv zeta. fold n.
  set (w0 := {| w_env := _; w_files := _; w_trace := _ |}).
  destruct (0 <? n).
  - destruct (checked_write_run pcm (snd_pcm_frames_to_bytes pcm n) w0)
      as [Hab | (w' & Hrun & Htr & Hm)].
    + left. apply bind_Abort. exact Hab.
    + right. exists w', [EvWrite (fd (priv pcm)) (snd_pcm_frames_to_bytes pcm n)
                                  (snd_pcm_frames_to_bytes pcm n)].
      split; [etransitivity; [apply bind_Ret; exact Hrun | reflexivity]|].
      split; [rewrite Htr; cbn; rewrite <- app_assoc; reflexivity|].
      split; [reflexivity|]. rewrite Hm. reflexivity.
  - right. exists w0, []. repeat split. unfold mirrored. cbn. lia.
Qed.

Lemma snd_pcm_file_writen_run (pcm : snd_pcm_t) (bufs size : Z) (w : world E) :
  let n := fst (snd_pcm_writen (slave (priv pcm)) bufs size (w_env w)) in
  snd_pcm_file_writen pcm bufs size w = Abort \/
  exists w' tr,
    snd_pcm_file_writen pcm bufs size w = Ret n w' /\
    w_trace w' = w_trace w ++ EvWriten (slave (priv pcm)) bufs size n :: tr /\
    writes tr = (if 0 <? n then [(fd (priv pcm), snd_pcm_frames_to_bytes pcm n)] else []) /\
    mirrored pcm w' =
      mirrored pcm w + (if 0 <? n then Z.max 0 (snd_pcm_frames_to_bytes pcm n) else 0).
Proof.
  intros n. unfold snd_pcm_file_writen. cbv zeta.
  rewrite transfer_shape. cbv zeta. fold n.
  set (w0 := {| w_env := _; w_files := _; w_trace := _ |}).
  destruct (0 <? n).
  - set (w1 := {| w_env := w_env w0; w_files := w_files w0;
                  w_trace := w_trace w0 ++ [EvAreasFromBufs bufs] |}).
    destruct (write_areas_run pcm (BufAreas bufs) 0 n w1)
      as [Hab | (w' & Hrun & Htr & Hm)].
    + left. apply bind_Abort.
      etransitivity; [apply bind_Ret; reflexivity | exact Hab].
    + right. eexists w', _.
      split; [etransitivity;
              [apply bind_Ret; etransitivity; [apply bind_Ret; reflexivity | exact Hrun]
              | reflexivity]|].
      split; [rewrite Htr; cbn; rewrite <- !app_assoc; reflexivity|].
      split; [reflexivity|]. rewrite Hm. reflexivity.
  - right. exists w0, []. repeat split. unfold mirrored. cbn. lia.
Qed.

(** snd_pcm_file_readn is snd_pcm_file_writen under another name. *)
Lemma snd_pcm_file_readn_is_writen (pcm : snd_pcm_t) (bufs size : Z) (w : world E) :
  snd_pcm_file_readn pcm bufs size w = snd_pcm_file_writen pcm bufs size w.
Proof. reflexivity. Qed.

(** What holds of the mirror on the interleaved path: a transfer that
    returns has added the bytes of the frames the slave reported. *)
Lemma interleaved_transfer_mirrored (fuel : nat) (pcm : snd_pcm_t) (t : transfer)
    (w w' : world E) (n : Z) :
  (match t with MmapForward _ => False | _ => True end) ->
  0 <= bytes_per_frame pcm ->
  run_transfer fuel pcm t w = Ret n w' ->
  mirrored pcm w' = mirrored pcm w + transferred_bytes pcm [n].
Proof.
  intros Ht Hbpf Hrun. unfold transferred_bytes. cbn [fold_right].
  destruct t as [buffer size|buffer size|size]; [| |contradiction]; cbn in Hrun.
  - destruct (snd_pcm_file_writei_run pcm buffer size w)
      as [Hab | (w1 & tr & Hrun1 & _ & _ & Hm)]; [congruence|].
    rewrite Hrun in Hrun1. injection Hrun1 as -> ->. rewrite Hm.
    unfold snd_pcm_frames_to_bytes.
    destruct (Z.ltb_spec 0 (fst (snd_pcm_writei (slave (priv pcm)) buffer size (w_env w)))); nia.
  - destruct (snd_pcm_file_readi_run pcm buffer size w)
      as [Hab | (w1 & tr & Hrun1 & _ & _ & Hm)]; [congruence|].
    rewrite Hrun in Hrun1. injection Hrun1 as -> ->. rewrite Hm.
    unfold snd_pcm_frames_to_bytes.
    destruct (Z.ltb_spec 0 (fst (snd_pcm_readi (slave (priv pcm)) buffer size (w_env w)))); nia.
Qed.

Lemma interleaved_transfers_mirrored (fuel : nat) (pcm : snd_pcm_t)
    (ts : list transfer) :
  Forall (fun t => match t with MmapForward _ => False | _ => True end) ts ->
  0 <= bytes_per_frame pcm ->
  forall (w w' : world E) (ns : list Z),
    run_transfers fuel pcm ts w = Ret ns w' ->
    mirrored pcm w' = mirrored pcm w + transferred_bytes pcm ns.
Proof.
  intros Hts Hbpf. induction Hts as [|t ts Ht Hts IH]; intros w w' ns Hrun.
  - cbn in Hrun. injection Hrun as <- <-. cbn. lia.
  - cbn [run_transfers] in Hrun. unfold bind in Hrun.
    destruct (run_transfer fuel pcm t w) as [n w1| |] eqn:H1; try discriminate.
    destruct (run_transfers fuel pcm ts w1) as [ns' w2| |] eqn:H2; try discriminate.
    cbn in Hrun. injection Hrun as <- <-.
    rewrite (IH _ _ _ H2).
    rewrite (interleaved_transfer_mirrored fuel pcm t w w1 n Ht Hbpf H1).
    unfold transferred_bytes. cbn [fold_right]. lia.
Qed.

(** What holds of the mirror on the mmap path: when the slave moves all the
    frames it was asked for, the bytes of these frames are added, also
    across the end of the ring. *)
Lemma mmap_forward_full_mirrored (fuel : nat) (pcm : snd_pcm_t) (size : Z)
    (w w' : world E) (r : Z) :
  (2 <= fuel)%nat -> 0 <= bytes_per_frame pcm ->
  0 < buffer_size pcm < 2 ^ 64 -> 0 < size <= buffer_size pcm ->
  fst (snd_pcm_mmap_forward (slave (priv pcm)) size (w_env w)) = size ->
  snd_pcm_file_mmap_forward fuel pcm size w = Ret r w' ->
  r = size /\ mirrored pcm w' = mirrored pcm w + snd_pcm_frames_to_bytes pcm size.
Proof.
  intros Hfuel Hbpf HB Hsize Hfull Hrun.
  destruct fuel as [|[|k]]; [lia|lia|].
  assert (Hofs : 0 <= appl_ptr (w_env w) mod buffer_size pcm < buffer_size pcm)
    by (apply Z.mod_pos_bound; lia).
  set (ofs := appl_ptr (w_env w) mod buffer_size pcm) in *.
  set (w0 := {| w_env := snd (snd_pcm_mmap_forward (slave (priv pcm)) size (w_env w));
                w_files := w_files w;
                w_trace := w_trace w ++ [EvMmapForward (slave (priv pcm)) size size] |}).
  assert (Hstep : snd_pcm_file_mmap_forward (S (S k)) pcm size w =
                  (mmap_forward_loop (S (S k)) pcm size size ofs 0 ;;; ret size) w0).
  { unfold snd_pcm_file_mmap_forward. cbv zeta.
    unfold bind at 1. unfold peek at 1.
    unfold bind at 1. unfold assert at 1.
    destruct (Z.eqb_spec (buffer_size pcm) 0) as [H0|_]; [lia|].
    cbn [negb].
    unfold bind at 1. rewrite pcm_lower_run. rewrite Hfull.
    destruct (Z.leb_spec size 0) as [|_]; [lia|]. reflexivity. }
  rewrite Hstep in Hrun.
  destruct (mmap_forward_loop_run k pcm size size ofs w0)
    as [Hab | (w1 & tr & Hloop & _ & _ & _ & Hm)]; try lia.
  - rewrite (bind_Abort _ _ _ Hab) in Hrun. discriminate.
  - rewrite (bind_Ret _ _ _ _ _ Hloop) in Hrun. injection Hrun as <- <-.
    split; [reflexivity|]. rewrite Hm.
    replace (mirrored pcm w0) with (mirrored pcm w) by reflexivity.
    unfold chunks, snd_pcm_frames_to_bytes.
    destruct (Z.leb_spec (ofs + size) (buffer_size pcm)); cbn [fold_right snd].
    + rewrite Z.min_l by lia. nia.
    + rewrite Z.min_l by lia. nia.
Qed.

(** *** Rewind *)

(** C5, as amended: when the slave rewinds k > 0 frames and the seek
    succeeds (the descriptor can seek and lies at least k frames' bytes into
    the file), snd_pcm_file_rewind moves the offset of the descriptor back by
    k times the bytes per frame and returns k; when the seek fails it
    returns the -1 of lseek and the offset stays; when the slave rewinds
    nothing or fails, its result is returned and the offset stays. *)
Theorem snd_pcm_file_rewind_seeks (pcm : snd_pcm_t) (frames : Z) (w : world E)
    (f : filedesc) :
  let k := fst (snd_pcm_rewind (slave (priv pcm)) frames (w_env w)) in
  let back := k * bytes_per_frame pcm in
  w_files w !! fd (priv pcm) = Some f ->
  exists r w',
    snd_pcm_file_rewind pcm frames w = Ret r w' /\
    (0 < k -> f_seekable f = true -> back <= f_pos f ->
       r = k /\ position pcm w' = Some (f_pos f - back)) /\
    (0 < k -> f_seekable f = false \/ f_pos f < back ->
       r = -1 /\ position pcm w' = Some (f_pos f)) /\
    (k <= 0 -> r = k /\ position pcm w' = Some (f_pos f)).
Proof.
  intros k back Hf.
  unfold snd_pcm_file_rewind. cbv zeta.
  unfold bind at 1. rewrite pcm_lower_run. fold k.
  unfold snd_pcm_frames_to_bytes. fold back.
  destruct (Z.ltb_spec 0 k) as [Hk|Hk].
  - unfold bind, sys_lseek_cur. cbn [w_files w_env w_trace]. rewrite Hf.
    destruct (f_seekable f) eqn:Hseek; cbn [andb].
    + destruct (Z.leb_spec 0 (f_pos f + - back)) as [Hfit|Hpast].
      * destruct (Z.leb_spec 0 (f_pos f + - back)) as [_|]; [|lia].
        destruct (Z.ltb_spec (f_pos f + - back) 0) as [|_]; [lia|].
        eexists _, _. split; [reflexivity|].
        unfold position, ret. cbn. rewrite lookup_insert_eq. cbn.
        repeat split; try lia; try (f_equal; lia).
      * cbn. eexists _, _. split; [reflexivity|].
        unfold position. cbn. rewrite Hf. cbn.
        repeat split; try lia.
    + cbn. eexists _, _. split; [reflexivity|].
      unfold position. cbn. rewrite Hf. cbn.
      repeat split; try lia; try discriminate.
  - eexists _, _. split; [reflexivity|].
    unfold position. cbn. rewrite Hf. cbn.
    repeat split; try lia.
Qed.

(** *** Close *)


(** C10: snd_pcm_file_close returns 0 from every state of the plugin and of
    the world; when close_slave is set the slave is closed and whatever
    snd_pcm_close returned, a negative code included, shows in the log only:
    it is not the result. *)
Theorem snd_pcm_file_close_returns_zero (pcm : snd_pcm_t) (w : world E) :
  exists w',
    snd_pcm_file_close pcm w = Ret 0 w' /\
    (truthy (close_slave (priv pcm)) = true ->
       In (EvPcmClose (slave (priv pcm))
                      (fst (snd_pcm_close (slave (priv pcm)) (w_env w))))
          (w_trace w')).
Proof.
  unfold snd_pcm_file_close, bind, lower, emit, sys_close, ret.
  destruct (truthy (close_slave (priv pcm))).
  - destruct (snd_pcm_close (slave (priv pcm)) (w_env w)) as [r e].
    destruct (fname (priv pcm)); eexists; (split; [reflexivity|]);
      intros _; cbn; rewrite !in_app_iff; cbn; tauto.
  - destruct (fname (priv pcm)); eexists; (split; [reflexivity|]);
      discriminate.
Qed.



End PcmFileProperties.

(** *** Concrete runs *)
Section ConcreteRuns.
Import PcmFile.

(** C1, at the input where it fails: the slave is asked for 4 frames and
    moves 2; the loop of pcm_file.c:833 runs while fewer than n = 2 frames
    are copied but sizes its chunk from the request ([size - xfer]), so one
    round writes 4 frames: 16 bytes reach the descriptor where the 2 frames
    the slave reported stand for 8. *)
Theorem snd_pcm_file_mmap_forward_short_transfer :
  let pcm := stereo16 to_path in
  let w := boot (slave_taking 2 0) 3 0 in
  exists w',
    run_transfers 2 pcm [MmapForward 4] w = Ret [2] w' /\
    transferred_bytes pcm [2] = 8 /\
    mirrored pcm w' - mirrored pcm w = 16 /\
    writes (w_trace w') = [(3, 16)].
Proof. eexists. vm_compute. repeat split. Qed.

(** C6, at the input where it fails: snd_pcm_file_readn hands the caller's
    buffers to the slave's writen (pcm_file.c:817); the slave's readn is not
    called, unlike what the delegation by kind and direction says. *)
Theorem snd_pcm_file_readn_calls_writen :
  let pcm := stereo16 to_path in
  let w := boot (slave_taking 8 0) 3 0 in
  exists w' w'',
    snd_pcm_file_readn pcm 64 4 w = Ret 4 w' /\
    head (w_trace w') = Some (EvWriten 1 64 4 4) /\
    snd_pcm_file_readn_spec pcm 64 4 w = Ret 4 w'' /\
    head (w_trace w'') = Some (EvReadn 1 64 4 4).
Proof. eexists _, _. vm_compute. repeat split. Qed.

(** C5 as stated fails: the plugin mirrors to a pipe the caller supplied;
    4 frames are written, then the slave rewinds 2 of them; lseek fails on
    the pipe, snd_pcm_file_rewind returns -1 instead of 2 and the offset
    has not moved. *)
Lemma snd_pcm_file_rewind_on_pipe :
  let pcm := stereo16 to_fd in
  let w := pipe_world (slave_taking 8 0) 5 in
  exists w1 w2,
    snd_pcm_file_writei pcm 64 4 w = Ret 4 w1 /\
    fst (snd_pcm_rewind 1 2 (w_env w1)) = 2 /\
    snd_pcm_file_rewind pcm 2 w1 = Ret (-1) w2 /\
    position pcm w2 = position pcm w1.
Proof. eexists _, _. vm_compute. repeat split. Qed.


End ConcreteRuns.


(** A rewind on a file 16 bytes in: the slave rewinds 2 frames, the offset
    goes back by 8. *)
Lemma snd_pcm_file_rewind_seeks_witness :
  let pcm := PcmFile.stereo16 PcmFile.to_path in
  let w := PcmFile.boot (PcmFile.slave_taking 8 4) 3 16 in
  let f := {| PcmFile.f_pos := 16; PcmFile.f_written := 0; PcmFile.f_seekable := true |} in
  PcmFile.w_files w !! 3 = Some f /\
  exists r w',
    PcmFile.snd_pcm_file_rewind pcm 2 w = PcmFile.Ret r w' /\
    r = 2 /\ PcmFile.position pcm w' = Some (16 - 2 * 4).
Proof.
  intros pcm w f. split; [reflexivity|].
  destruct (snd_pcm_file_rewind_seeks pcm 2 w f eq_refl)
    as (r & w' & Hrun & Hok & _).
  exists r, w'. split; [exact Hrun|].
  apply Hok; [vm_compute; reflexivity | reflexivity | vm_compute; discriminate].
Defined.


(* ===================================================================== *)
(** ** Further properties of pcm/pcm_file.c *)
(* ===================================================================== *)
Section PcmFileOpenProperties.
Import PcmFile PcmFileOps.
Context {E : Type} {L : PcmLayer E}.
Local Open Scope pcm_scope.

(** The close of the plugin's own handle: the core's part, then the close
    entry of the plugin. *)
Lemma snd_pcm_close_handle_run (pcm : snd_pcm_t) (w : world E) :
  exists w' tr,
    snd_pcm_close_handle pcm w = Ret (fst (snd_pcm_close_self (w_env w))) w' /\
    w_trace w' = w_trace w ++ tr /\
    closed_pcms tr = (if truthy (close_slave (priv pcm)) then [slave (priv pcm)] else []) /\
    closed_fds tr = (match fname (priv pcm) with
                     | Some _ => [fd (priv pcm)]
                     | None => []
                     end) /\
    Forall (fun e => e <> EvCalloc false) tr /\
    w_files w' = (match fname (priv pcm) with
                  | Some _ => delete (fd (priv pcm)) (w_files w)
                  | None => w_files w
                  end).
Proof.
  unfold snd_pcm_close_handle, snd_pcm_file_close, bind, lower, emit, sys_close, ret.
  destruct (snd_pcm_close_self (w_env w)) as [rc e1]. simpl.
  destruct (truthy (close_slave (priv pcm))); simpl;
    [destruct (snd_pcm_close (slave (priv pcm)) e1) as [r e]|];
    destruct (fname (priv pcm)); eexists _, _;
    (split; [reflexivity|]); cbn;
    (split; [rewrite <- ?app_assoc; cbn; reflexivity|]);
    (split; [reflexivity|]); (split; [reflexivity|]);
    (split; [repeat constructor; discriminate|]); reflexivity.
Qed.



End PcmFileOpenProperties.

Section PcmFileOpsProperties.
Import PcmFile PcmFileOps.
Context {E : Type} {L : PcmLayer E}.
Local Open Scope pcm_scope.

(** The mmap entry up to its loop: the slave has moved n > 0 frames. *)
Lemma mmap_forward_unfold (fuel : nat) (pcm : snd_pcm_t) (size : Z) (w : world E) :
  buffer_size pcm <> 0 ->
  0 < fst (snd_pcm_mmap_forward (slave (priv pcm)) size (w_env w)) ->
  snd_pcm_file_mmap_forward fuel pcm size w =
    (mmap_forward_loop fuel pcm size
       (fst (snd_pcm_mmap_forward (slave (priv pcm)) size (w_env w)))
       (appl_ptr (w_env w) mod buffer_size pcm) 0 ;;;
     ret (fst (snd_pcm_mmap_forward (slave (priv pcm)) size (w_env w))))
      {| w_env := snd (snd_pcm_mmap_forward (slave (priv pcm)) size (w_env w));
         w_files := w_files w;
         w_trace := w_trace w ++
           [EvMmapForward (slave (priv pcm)) size
              (fst (snd_pcm_mmap_forward (slave (priv pcm)) size (w_env w)))] |}.
Proof.
  intros HB Hn. unfold snd_pcm_file_mmap_forward. cbv zeta.
  unfold bind at 1. unfold peek at 1.
  unfold bind at 1. unfold assert at 1.
  destruct (Z.eqb_spec (buffer_size pcm) 0) as [H0|_]; [contradiction|].
  cbn [negb].
  unfold bind at 1. rewrite pcm_lower_run.
  destruct (Z.leb_spec (fst (snd_pcm_mmap_forward (slave (priv pcm)) size (w_env w))) 0)
    as [|_]; [lia|]. reflexivity.
Qed.

(** X5: a transfer in which the slave moves nothing, or fails, returns what
    the slave returned and leaves the descriptors alone: the only call made
    is the one to the slave. *)
Theorem transfer_idle (fuel : nat) (pcm : snd_pcm_t) (k : kind)
    (buffer size : Z) (w : world E) :
  fst (slave_call pcm k buffer size (w_env w)) <= 0 ->
  (k = Kmmap_forward -> buffer_size pcm <> 0) ->
  transfer fuel pcm k buffer size w =
    Ret (fst (slave_call pcm k buffer size (w_env w)))
        {| w_env := snd (slave_call pcm k buffer size (w_env w));
           w_files := w_files w;
           w_trace := w_trace w ++
             [slave_event pcm k buffer size
                (fst (slave_call pcm k buffer size (w_env w)))] |}.
Proof.
  intros Hn HB.
  destruct k; cbn [transfer slave_call slave_event] in *.
  - unfold snd_pcm_file_writei. cbv zeta. rewrite transfer_shape. cbv zeta.
    destruct (Z.ltb_spec 0 (fst (snd_pcm_writei (slave (priv pcm)) buffer size (w_env w))));
      [lia|reflexivity].
  - unfold snd_pcm_file_writen. cbv zeta. rewrite transfer_shape. cbv zeta.
    destruct (Z.ltb_spec 0 (fst (snd_pcm_writen (slave (priv pcm)) buffer size (w_env w))));
      [lia|reflexivity].
  - unfold snd_pcm_file_readi. cbv zeta. rewrite transfer_shape. cbv zeta.
    destruct (Z.ltb_spec 0 (fst (snd_pcm_readi (slave (priv pcm)) buffer size (w_env w))));
      [lia|reflexivity].
  - unfold snd_pcm_file_readn. cbv zeta. rewrite transfer_shape. cbv zeta.
    destruct (Z.ltb_spec 0 (fst (snd_pcm_writen (slave (priv pcm)) buffer size (w_env w))));
      [lia|reflexivity].
  - unfold snd_pcm_file_mmap_forward, bind, peek, assert. cbv zeta.
    destruct (Z.eqb_spec (buffer_size pcm) 0) as [H0|_]; [exact (False_ind _ (HB eq_refl H0))|].
    cbn [negb]. rewrite pcm_lower_run.
    destruct (Z.leb_spec (fst (snd_pcm_mmap_forward (slave (priv pcm)) size (w_env w))) 0);
      [reflexivity|lia].
Qed.

(** A transfer of one of the four copying kinds that returns has added
    the bytes of the frames it returned. *)
Lemma copy_transfer_mirrored (fuel : nat) (pcm : snd_pcm_t) (k : kind)
    (buffer size : Z) (w w' : world E) (n : Z) :
  k <> Kmmap_forward -> 0 <= bytes_per_frame pcm ->
  transfer fuel pcm k buffer size w = Ret n w' ->
  n = fst (slave_call pcm k buffer size (w_env w)) /\
  mirrored pcm w' = mirrored pcm w + transferred_bytes pcm [n].
Proof.
  intros Hk Hbpf Hrun. unfold transferred_bytes. cbn [fold_right].
  assert (Hmax : forall m, 0 < m ->
            Z.max 0 (snd_pcm_frames_to_bytes pcm m) = snd_pcm_frames_to_bytes pcm m).
  { intros m Hm. unfold snd_pcm_frames_to_bytes. nia. }
  destruct k; [| | | |contradiction]; cbn [transfer slave_call] in *.
  - destruct (snd_pcm_file_writei_run pcm buffer size w)
      as [Hab | (w1 & tr & Hrun1 & _ & _ & Hm)]; [congruence|].
    rewrite Hrun in Hrun1. injection Hrun1 as -> ->. split; [reflexivity|].
    rewrite Hm.
    destruct (Z.ltb_spec 0 (fst (snd_pcm_writei (slave (priv pcm)) buffer size (w_env w))));
      [rewrite Hmax by assumption|]; lia.
  - destruct (snd_pcm_file_writen_run pcm buffer size w)
      as [Hab | (w1 & tr & Hrun1 & _ & _ & Hm)]; [congruence|].
    rewrite Hrun in Hrun1. injection Hrun1 as -> ->. split; [reflexivity|].
    rewrite Hm.
    destruct (Z.ltb_spec 0 (fst (snd_pcm_writen (slave (priv pcm)) buffer size (w_env w))));
      [rewrite Hmax by assumption|]; lia.
  - destruct (snd_pcm_file_readi_run pcm buffer size w)
      as [Hab | (w1 & tr & Hrun1 & _ & _ & Hm)]; [congruence|].
    rewrite Hrun in Hrun1. injection Hrun1 as -> ->. split; [reflexivity|].
    rewrite Hm.
    destruct (Z.ltb_spec 0 (fst (snd_pcm_readi (slave (priv pcm)) buffer size (w_env w))));
      [rewrite Hmax by assumption|]; lia.
  - rewrite snd_pcm_file_readn_is_writen in Hrun.
    destruct (snd_pcm_file_writen_run pcm buffer size w)
      as [Hab | (w1 & tr & Hrun1 & _ & _ & Hm)]; [congruence|].
    rewrite Hrun in Hrun1. injection Hrun1 as -> ->. split; [reflexivity|].
    rewrite Hm.
    destruct (Z.ltb_spec 0 (fst (snd_pcm_writen (slave (priv pcm)) buffer size (w_env w))));
      [rewrite Hmax by assumption|]; lia.
Qed.

(** X6: through any sequence of interleaved and non-interleaved writes and
    reads that returns, the descriptor has taken the bytes of the frames
    the calls returned: the sum, over the calls that returned a positive
    count, of the count times the bytes per frame. *)
Theorem transfers_mirrored (fuel : nat) (pcm : snd_pcm_t)
    (ops : list (kind * Z * Z)) (w w' : world E) (ns : list Z) :
  Forall (fun op => fst (fst op) <> Kmmap_forward) ops ->
  0 <= bytes_per_frame pcm ->
  transfers fuel pcm ops w = Ret ns w' ->
  length ns = length ops /\
  mirrored pcm w' = mirrored pcm w + transferred_bytes pcm ns.
Proof.
  intros Hops Hbpf. revert w w' ns.
  induction Hops as [|[[k buffer] size] ops Hk Hops IH]; intros w w' ns Hrun.
  - cbn in Hrun. injection Hrun as <- <-. cbn. split; [reflexivity|lia].
  - cbn [transfers] in Hrun. unfold bind in Hrun.
    destruct (transfer fuel pcm k buffer size w) as [n w1| |] eqn:H1; try discriminate.
    destruct (transfers fuel pcm ops w1) as [ns' w2| |] eqn:H2; try discriminate.
    cbn in Hrun. injection Hrun as <- <-.
    destruct (IH _ _ _ H2) as [Hlen Hm].
    destruct (copy_transfer_mirrored fuel pcm k buffer size w w1 n Hk Hbpf H1) as [_ Hm1].
    split; [cbn; rewrite Hlen; reflexivity|].
    rewrite Hm, Hm1. unfold transferred_bytes. cbn [fold_right]. lia.
Qed.

(** X7: when the slave moves n of the size frames asked for (0 < n <= size,
    n <= B), a call of snd_pcm_file_mmap_forward that returns has copied to
    the descriptor at least the n frames the slave moved and at most the
    size frames asked for, and the descriptor has taken the bytes of what
    was copied. *)
Theorem mmap_forward_copies_between (fuel : nat) (pcm : snd_pcm_t) (size : Z)
    (w w' : world E) (r : Z) :
  let n := fst (snd_pcm_mmap_forward (slave (priv pcm)) size (w_env w)) in
  (2 <= fuel)%nat -> 0 <= bytes_per_frame pcm ->
  0 < buffer_size pcm < 2 ^ 64 -> 0 < n <= size -> size < 2 ^ 64 ->
  n <= buffer_size pcm ->
  snd_pcm_file_mmap_forward fuel pcm size w = Ret r w' ->
  r = n /\
  exists tr,
    w_trace w' = w_trace w ++ tr /\
    n <= frames_copied (ring_copies tr) <= size /\
    mirrored pcm w' =
      mirrored pcm w + frames_copied (ring_copies tr) * bytes_per_frame pcm.
Proof.
  intros n Hfuel Hbpf HB Hn Hsize HnB Hrun.
  destruct fuel as [|[|k]]; [lia|lia|].
  assert (Hofs : 0 <= appl_ptr (w_env w) mod buffer_size pcm < buffer_size pcm)
    by (apply Z.mod_pos_bound; lia).
  rewrite mmap_forward_unfold in Hrun by (fold n; lia). fold n in Hrun.
  set (ofs := appl_ptr (w_env w) mod buffer_size pcm) in *.
  match type of Hrun with
  | bind _ _ ?w0 = _ =>
      destruct (mmap_forward_loop_run k pcm size n ofs w0)
        as [Hab | (w1 & tr & Hloop & Htr & Hcopies & _ & Hm)]; try lia
  end.
  - rewrite (bind_Abort _ _ _ Hab) in Hrun. discriminate.
  - rewrite (bind_Ret _ _ _ _ _ Hloop) in Hrun. injection Hrun as <- <-.
    split; [reflexivity|].
    exists (EvMmapForward (slave (priv pcm)) size n :: tr).
    split; [rewrite Htr; cbn; rewrite <- app_assoc; reflexivity|].
    cbn [ring_copies]. rewrite Hcopies, Hm.
    replace (mirrored pcm _) with (mirrored pcm w) by reflexivity.
    unfold chunks, frames_copied, snd_pcm_frames_to_bytes.
    destruct (Z.leb_spec (ofs + n) (buffer_size pcm)); cbn [fold_right snd].
    + split; [lia|].
      assert (0 < Z.min size (buffer_size pcm - ofs)) by lia. nia.
    + split; [lia|].
      assert (0 < buffer_size pcm - ofs) by lia.
      assert (0 < Z.min (size - (buffer_size pcm - ofs)) (buffer_size pcm)) by lia.
      nia.
Qed.

(** Once the loop has copied all it was asked for and the slave reported
    more, it cannot end. *)
Lemma mmap_forward_loop_stuck (pcm : snd_pcm_t) (size n : Z) (fuel : nat) :
  0 < buffer_size pcm < 2 ^ 64 -> 0 <= size < 2 ^ 64 -> size < n ->
  forall (ofs xfer : Z) (w : world E),
    0 <= ofs < buffer_size pcm -> 0 <= xfer <= size ->
    forall w', mmap_forward_loop fuel pcm size n ofs xfer w <> Ret tt w'.
Proof.
  intros HB Hsize Hn.
  induction fuel as [|fuel IH]; intros ofs xfer w Hofs Hxfer w'.
  - cbn [mmap_forward_loop]. destruct (Z.ltb_spec xfer n); [discriminate|lia].
  - rewrite mmap_forward_loop_step.
    destruct (Z.ltb_spec xfer n); [|lia]. cbv zeta.
    unfold size_t.
    rewrite (Z.mod_small (size - xfer)) by lia.
    rewrite (Z.mod_small (buffer_size pcm - ofs)) by lia.
    set (frames := if buffer_size pcm - ofs <? size - xfer
                   then buffer_size pcm - ofs else size - xfer).
    assert (Hframes : 0 <= frames /\ frames <= size - xfer /\
                      frames <= buffer_size pcm - ofs).
    { unfold frames. destruct (Z.ltb_spec (buffer_size pcm - ofs) (size - xfer)); lia. }
    destruct (write_areas_run pcm MmapAreas ofs frames w)
      as [Hab | (w1 & Hrun1 & _)].
    + rewrite (bind_Abort _ _ _ Hab). discriminate.
    + rewrite (bind_Ret _ _ _ _ _ Hrun1).
      rewrite (Z.mod_small (ofs + frames)) by lia.
      rewrite (Z.mod_small (xfer + frames)) by lia.
      apply IH; [|lia].
      destruct (Z.eqb_spec (ofs + frames) (buffer_size pcm)); lia.
Qed.

(** X8: when the slave reports more frames than it was asked for,
    snd_pcm_file_mmap_forward does not return: after the size frames are
    copied the loop goes on with chunks of zero frames, for ever unless a
    write fails the assertion. *)
Theorem mmap_forward_overreported (fuel : nat) (pcm : snd_pcm_t) (size : Z)
    (w : world E) :
  0 < buffer_size pcm < 2 ^ 64 -> 0 <= size < 2 ^ 64 ->
  size < fst (snd_pcm_mmap_forward (slave (priv pcm)) size (w_env w)) ->
  forall r w', snd_pcm_file_mmap_forward fuel pcm size w <> Ret r w'.
Proof.
  intros HB Hsize Hn r w'.
  rewrite mmap_forward_unfold by lia.
  intros Hrun. unfold bind in Hrun.
  match type of Hrun with
  | match ?m with _ => _ end = _ => destruct m as [[] w1| |] eqn:Hloop; try discriminate
  end.
  revert Hloop. apply mmap_forward_loop_stuck; try lia.
  apply Z.mod_pos_bound; lia.
Qed.

(** *** A write and a rewind *)

Lemma checked_write_file (pcm : snd_pcm_t) (bytes : Z) (w w' : world E)
    (f : filedesc) :
  w_files w !! fd (priv pcm) = Some f ->
  (r <- sys_write (fd (priv pcm)) bytes ;; assert (r =? bytes)) w = Ret tt w' ->
  w_files w' !! fd (priv pcm) =
    Some {| f_pos := f_pos f + Z.max 0 bytes;
            f_written := f_written f + Z.max 0 bytes;
            f_seekable := f_seekable f |}.
Proof.
  intros Hf. unfold bind, sys_write, assert. rewrite Hf.
  destruct (write_accepts (fd (priv pcm)) bytes (w_env w)) as [r e].
  destruct (Z.eqb_spec r bytes) as [->|]; [|discriminate].
  intros Hret. injection Hret as <-. cbn. rewrite lookup_insert_eq.
  destruct (Z.ltb_spec 0 bytes).
  - rewrite Z.max_r by lia. reflexivity.
  - rewrite Z.max_l by lia. rewrite !Z.add_0_r. destruct f; reflexivity.
Qed.

(** X9: on a descriptor that can seek, a writei of n frames followed by a
    rewind in which k of them (0 < k <= n) are taken back leaves the offset
    n - k frames' bytes past where it was: rewinding all that was written
    puts the offset back.  The count of bytes written is not taken back. *)
Theorem write_then_rewind_offset (pcm : snd_pcm_t) (buffer size frames : Z)
    (w w2 : world E) (f : filedesc) (n k : Z) :
  w_files w !! fd (priv pcm) = Some f ->
  f_seekable f = true -> 0 <= f_pos f -> 0 <= bytes_per_frame pcm ->
  write_then_rewind pcm buffer size frames w = Ret (n, k) w2 ->
  0 < k <= n ->
  position pcm w2 = Some (f_pos f + (n - k) * bytes_per_frame pcm) /\
  mirrored pcm w2 = mirrored pcm w + n * bytes_per_frame pcm.
Proof.
  intros Hf Hseek Hpos Hbpf Hrun Hk.
  unfold write_then_rewind in Hrun. unfold bind at 1 in Hrun.
  destruct (snd_pcm_file_writei pcm buffer size w) as [n' w1| |] eqn:Hw;
    try discriminate.
  assert (Hfile1 : w_files w1 !! fd (priv pcm) =
            Some {| f_pos := f_pos f + n' * bytes_per_frame pcm;
                    f_written := f_written f + n' * bytes_per_frame pcm;
                    f_seekable := true |} \/ n' <= 0).
  { revert Hw. unfold snd_pcm_file_writei. cbv zeta. rewrite transfer_shape. cbv zeta.
    destruct (Z.ltb_spec 0 (fst (snd_pcm_writei (slave (priv pcm)) buffer size (w_env w))))
      as [Hn'|Hn'].
    - intros Hw. unfold bind at 1 in Hw.
      match type of Hw with
      | match ?m with _ => _ end = _ => destruct m as [[] w1'| |] eqn:Hcw; try discriminate
      end.
      injection Hw as <- <-. left.
      rewrite ((fun H => checked_write_file pcm _ _ _ f H Hcw) Hf).
      unfold snd_pcm_frames_to_bytes. rewrite Z.max_r by nia.
      rewrite Hseek. reflexivity.
    - intros Hw. injection Hw as <- <-. right. exact Hn'. }
  unfold bind in Hrun.
  destruct (snd_pcm_file_rewind pcm frames w1) as [k' w2'| |] eqn:Hr; try discriminate.
  cbn in Hrun. injection Hrun as -> -> ->.
  destruct Hfile1 as [Hfile1|]; [|lia].
  revert Hr. unfold snd_pcm_file_rewind. cbv zeta.
  unfold bind at 1. rewrite pcm_lower_run.
  set (s := fst (snd_pcm_rewind (slave (priv pcm)) frames (w_env w1))).
  destruct (Z.ltb_spec 0 s) as [Hs|Hs].
  - unfold bind, sys_lseek_cur. cbn [w_files w_env w_trace].
    rewrite Hfile1. cbn [f_seekable f_pos f_written andb].
    unfold snd_pcm_frames_to_bytes.
    set (p := f_pos f + n * bytes_per_frame pcm + - (s * bytes_per_frame pcm)).
    destruct (Z.leb_spec 0 p) as [Hp|Hp].
    + destruct (Z.leb_spec 0 p) as [_|]; [|lia].
      destruct (Z.ltb_spec p 0) as [|_]; [lia|].
      unfold ret. intros Hret. injection Hret as <- <-.
      unfold position, mirrored. cbn. rewrite lookup_insert_eq. cbn.
      split; [f_equal; unfold p; lia|].
      rewrite Hf. lia.
    + cbn. unfold ret. intros Hret. injection Hret as <- <-. lia.
  - unfold ret. intros Hret. injection Hret as <- <-. lia.
Qed.

End PcmFileOpsProperties.

Section PcmFileConfProperties.
Import PcmFile PcmFileConf.
Context {E : Type} {L : PcmLayer E} {O : OpenLayer E}.
Local Open Scope pcm_scope.

Lemma last_or_cons {A : Type} (d x : A) (l : list A) :
  last_or d (x :: l) = last_or x l.
Proof. unfold last_or. rewrite last_cons. destruct (last l); reflexivity. Qed.

Lemma last_or_None {A : Type} (l : list A) :
  last_or None (Some <$> l) = last l.
Proof.
  unfold last_or. rewrite fmap_last. destruct (last l); reflexivity.
Qed.

Lemma scan_run (conf : list snd_config_t) (sname fname : option string) (fd : Z) :
  scan conf sname fname fd =
    if existsb refused conf then inl (- Errno.EINVAL)
    else inr (last_or sname (Some <$> snames conf),
              last_or fname (Some <$> fnames conf),
              last_or fd (fds conf)).
Proof.
  revert sname fname fd.
  induction conf as [|[i s n] conf IH]; intros sname fname fd; [reflexivity|].
  cbn [scan existsb]. unfold refused, ignored, snames, fnames, fds.
  cbn [id as_string as_integer omap list_omap].
  destruct (String.eqb_spec i "comment") as [->|_];
    [cbn; apply IH|].
  destruct (String.eqb_spec i "type") as [->|_];
    [cbn; apply IH|].
  destruct (String.eqb_spec i "stream") as [->|_];
    [cbn; apply IH|].
  destruct (String.eqb_spec i "sname") as [->|_].
  { destruct s as [s|]; cbn; [|reflexivity].
    rewrite IH. cbn. rewrite last_or_cons. reflexivity. }
  destruct (String.eqb_spec i "file") as [->|_]; [|reflexivity].
  destruct s as [s|]; cbn.
  - rewrite IH. rewrite last_or_cons. reflexivity.
  - destruct n as [n|]; cbn; [|reflexivity].
    rewrite IH, last_or_cons. reflexivity.
Qed.

(** X10: the loop over the configuration fails, with -EINVAL, exactly when
    some entry is refused; otherwise it ends with the string of the last
    sname entry, the string of the last file entry that is a string, and
    the integer of the last file entry that is not (-1 without one).
    Entries with the keys comment, type and stream play no part. *)
Theorem snd_pcm_file_conf_scan (conf : list snd_config_t) :
  scan conf None None (-1) =
    if existsb refused conf then inl (- Errno.EINVAL)
    else inr (last (snames conf), last (fnames conf), last_or (-1) (fds conf)).
Proof. rewrite scan_run, !last_or_None. reflexivity. Qed.

(** X11: a configuration with a refused entry, without an sname entry, or
    without a usable file entry (no string, and no integer or a negative
    one) makes _snd_pcm_file_open return -EINVAL before it does anything:
    no string is duplicated, no PCM is opened, no file is created. *)
Theorem snd_pcm_file_conf_rejected (name : string) (conf : list snd_config_t)
    (stream mode : Z) (w : world E) :
  existsb refused conf = true \/ snames conf = [] \/
    (fnames conf = [] /\ last_or (-1) (fds conf) < 0) ->
  _snd_pcm_file_open name conf stream mode w = Ret (- Errno.EINVAL, None) w.
Proof.
  intros Hbad. unfold _snd_pcm_file_open. rewrite scan_run, !last_or_None.
  destruct (existsb refused conf); [reflexivity|].
  destruct Hbad as [Hbad|[Hs|[Hf Hfd]]]; [discriminate| |].
  - rewrite Hs. reflexivity.
  - rewrite Hf. cbn [last].
    destruct (last (snames conf)); [|reflexivity].
    destruct (Z.ltb_spec (last_or (-1) (fds conf)) 0); [reflexivity|lia].
Qed.

(** X12: only the last sname, the last file string and, without a file
    string, the last file integer matter: two configurations without a
    refused entry that agree on these behave the same, whatever else they
    hold and in whatever order; in particular a file entry that is a string
    takes precedence over every file entry that is an integer. *)
Theorem snd_pcm_file_conf_last_wins (name1 name2 : string)
    (conf1 conf2 : list snd_config_t) (stream mode : Z) (w : world E) :
  existsb refused conf1 = false -> existsb refused conf2 = false ->
  last (snames conf1) = last (snames conf2) ->
  last (fnames conf1) = last (fnames conf2) ->
  (last (fnames conf1) = None ->
     last_or (-1) (fds conf1) = last_or (-1) (fds conf2)) ->
  _snd_pcm_file_open name1 conf1 stream mode w =
    _snd_pcm_file_open name2 conf2 stream mode w.
Proof.
  intros H1 H2 Hs Hf Hfd. unfold _snd_pcm_file_open.
  rewrite !scan_run, !last_or_None, H1, H2, <- Hs, <- Hf.
  destruct (last (snames conf1)) as [sname|]; [|reflexivity].
  destruct (last (fnames conf1)) as [fname|].
  - reflexivity.
  - rewrite <- Hfd by reflexivity. reflexivity.
Qed.




End PcmFileConfProperties.

(** *** Concrete runs of the further properties *)

(** The constructor on a slave whose snd_pcm_init fails, from a path and
    with close_slave set: the code of snd_pcm_init comes back, the slave
    and descriptor 3 have been closed, and 3 has left the table. *)
Lemma snd_pcm_file_open_init_failure_run :
  exists w',
    PcmFile.snd_pcm_file_open (Some "out.raw") (-1) 1 1
      (PcmFile.boot PcmFileConf.init_failing 5 0) =
      PcmFile.Ret (- Errno.EINVAL, None) w' /\
    PcmFile.closed_pcms (PcmFile.w_trace w') = [1%positive] /\
    PcmFile.closed_fds (PcmFile.w_trace w') = [3] /\
    PcmFile.w_files w' !! 3 = None /\
    PcmFile.w_files w' !! 5 =
      Some {| PcmFile.f_pos := 0; PcmFile.f_written := 0;
              PcmFile.f_seekable := true |}.
Proof.
  eexists. split; [vm_compute; reflexivity|].
  repeat split; vm_compute; reflexivity.
Qed.

Lemma snd_ump_open_directions_witness :
  Ump.snd_ump_open true true "hw" 0 (Ump.boot Ump.ump_device) =
    Some ((0, Some 1%positive, Some 2%positive), Ump.opened) /\
  0 <= 0 /\
  Ump.snd_ump_write 1 0 16 Ump.opened = Some (- Errno.EINVAL, Ump.opened) /\
  Ump.snd_ump_read 2 0 16 Ump.opened = Some (- Errno.EINVAL, Ump.opened).
Proof.
  assert (Hrun : Ump.snd_ump_open true true "hw" 0 (Ump.boot Ump.ump_device) =
                   Some ((0, Some 1%positive, Some 2%positive), Ump.opened))
    by (vm_compute; reflexivity).
  split; [exact Hrun|]. split; [lia|].
  destruct (snd_ump_open_directions _ _ _ _ _ _ _ _ _ 0 0 16 Hrun (Z.le_refl 0))
    as [Hin Hout].
  split.
  - exact (proj1 (Hin _ eq_refl)).
  - exact (proj1 (Hout _ eq_refl)).
Defined.


Lemma snd_ump_open_raw_open_witness :
  Ump.snd_ump_open true true "hw" 0 (Ump.boot Ump.ump_device) =
    Some ((0, Some 1%positive, Some 2%positive), Ump.opened) /\
  exists tr,
    Ump.w_trace Ump.opened = Ump.w_trace (Ump.boot Ump.ump_device) ++ tr /\
    length (UmpSession.raw_opens tr) = 1%nat.
Proof.
  assert (Hrun : Ump.snd_ump_open true true "hw" 0 (Ump.boot Ump.ump_device) =
                   Some ((0, Some 1%positive, Some 2%positive), Ump.opened))
    by (vm_compute; reflexivity).
  split; [exact Hrun|].
  destruct (snd_ump_open_raw_open _ _ _ _ _ _ _ _ _ Hrun)
    as (tr & Htr & _ & Hone & _).
  exists tr. split; [exact Htr | exact (Hone (Z.le_refl 0))].
Defined.

Lemma transfer_idle_witness :
  let pcm := PcmFile.stereo16 PcmFile.to_path in
  let w := PcmFile.boot (PcmFile.slave_taking 0 0) 3 0 in
  (fst (PcmFileOps.slave_call pcm PcmFileOps.Kwritei 64 4 (PcmFile.w_env w)) <= 0 /\
   (PcmFileOps.Kwritei = PcmFileOps.Kmmap_forward -> PcmFile.buffer_size pcm <> 0)) /\
  exists w',
    PcmFileOps.transfer 2 pcm PcmFileOps.Kwritei 64 4 w = PcmFile.Ret 0 w' /\
    PcmFile.w_files w' = PcmFile.w_files w.
Proof.
  intros pcm w.
  assert (H1 : fst (PcmFileOps.slave_call pcm PcmFileOps.Kwritei 64 4 (PcmFile.w_env w)) <= 0)
    by (vm_compute; discriminate).
  assert (H2 : PcmFileOps.Kwritei = PcmFileOps.Kmmap_forward -> PcmFile.buffer_size pcm <> 0)
    by discriminate.
  split; [split; assumption|].
  eexists. split; [exact (transfer_idle 2 pcm PcmFileOps.Kwritei 64 4 w H1 H2)|].
  reflexivity.
Defined.

Lemma transfers_mirrored_witness :
  let pcm := PcmFile.stereo16 PcmFile.to_path in
  let w := PcmFile.boot (PcmFile.slave_taking 8 0) 3 0 in
  let ops := [(PcmFileOps.Kwritei, 64, 4); (PcmFileOps.Kreadn, 64, 2)] in
  Forall (fun op => fst (fst op) <> PcmFileOps.Kmmap_forward) ops /\
  0 <= PcmFile.bytes_per_frame pcm /\
  exists w',
    PcmFileOps.transfers 2 pcm ops w = PcmFile.Ret [4; 2] w' /\
    PcmFile.mirrored pcm w' = PcmFile.mirrored pcm w + PcmFile.transferred_bytes pcm [4; 2].
Proof.
  intros pcm w ops.
  assert (Hops : Forall (fun op => fst (fst op) <> PcmFileOps.Kmmap_forward) ops)
    by (repeat constructor; discriminate).
  assert (Hbpf : 0 <= PcmFile.bytes_per_frame pcm) by (cbn; lia).
  split; [exact Hops|]. split; [exact Hbpf|].
  eexists. split; [vm_compute; reflexivity|].
  refine (proj2 (transfers_mirrored 2 pcm ops w _ [4; 2] Hops Hbpf _)).
  vm_compute; reflexivity.
Defined.

Lemma mmap_forward_copies_between_witness :
  let pcm := PcmFile.stereo16 PcmFile.to_path in
  let w := PcmFile.boot (PcmFile.slave_taking 2 6) 3 0 in
  ((2 <= 2)%nat /\ 0 <= 4 /\ 0 < 8 < 2 ^ 64 /\ 0 < 2 <= 4 /\ 4 < 2 ^ 64 /\ 2 <= 8) /\
  exists w' tr,
    PcmFile.snd_pcm_file_mmap_forward 2 pcm 4 w = PcmFile.Ret 2 w' /\
    PcmFile.w_trace w' = PcmFile.w_trace w ++ tr /\
    2 <= PcmFileOps.frames_copied (PcmFile.ring_copies tr) <= 4.
Proof.
  intros pcm w. split; [lia|].
  assert (Hrun : exists w', PcmFile.snd_pcm_file_mmap_forward 2 pcm 4 w = PcmFile.Ret 2 w')
    by (eexists; vm_compute; reflexivity).
  destruct Hrun as [w' Hrun].
  destruct (mmap_forward_copies_between 2 pcm 4 w w' 2) as (_ & tr & Htr & Hcopied & _);
    try (cbn; lia); [exact Hrun|].
  exists w', tr. split; [exact Hrun|]. split; [exact Htr|]. exact Hcopied.
Defined.

Lemma mmap_forward_overreported_witness :
  let pcm := PcmFile.stereo16 PcmFile.to_path in
  let w := PcmFile.boot (PcmFile.slave_taking 8 0) 3 0 in
  (0 < 8 < 2 ^ 64 /\ 0 <= 4 < 2 ^ 64 /\
   4 < fst (@PcmFile.snd_pcm_mmap_forward _ PcmFileOps.overreporting 1%positive 4
              (PcmFile.w_env w))) /\
  forall r w',
    @PcmFile.snd_pcm_file_mmap_forward _ PcmFileOps.overreporting 6 pcm 4 w <>
      PcmFile.Ret r w'.
Proof.
  intros pcm w.
  assert (H : 4 < fst (@PcmFile.snd_pcm_mmap_forward _ PcmFileOps.overreporting 1%positive 4
                         (PcmFile.w_env w))) by (cbn; lia).
  split; [repeat split; try lia; exact H|].
  apply (@mmap_forward_overreported _ PcmFileOps.overreporting 6 pcm 4 w); cbn; lia.
Defined.

Lemma write_then_rewind_offset_witness :
  let pcm := PcmFile.stereo16 PcmFile.to_path in
  let w := PcmFile.boot (PcmFile.slave_taking 8 0) 3 0 in
  (0 <= 0 /\ 0 <= 4 /\ 0 < 4 <= 4) /\
  exists w2,
    PcmFileOps.write_then_rewind pcm 64 4 4 w = PcmFile.Ret (4, 4) w2 /\
    PcmFile.position pcm w2 = Some (0 + (4 - 4) * 4) /\
    PcmFile.mirrored pcm w2 = PcmFile.mirrored pcm w + 4 * 4.
Proof.
  intros pcm w. split; [lia|].
  assert (Hrun : exists w2, PcmFileOps.write_then_rewind pcm 64 4 4 w = PcmFile.Ret (4, 4) w2)
    by (eexists; vm_compute; reflexivity).
  destruct Hrun as [w2 Hrun]. exists w2. split; [exact Hrun|].
  refine (write_then_rewind_offset pcm 64 4 4 w w2
            {| PcmFile.f_pos := 0; PcmFile.f_written := 0; PcmFile.f_seekable := true |}
            4 4 _ _ _ _ Hrun _);
    first [reflexivity | cbn; lia].
Defined.

Lemma snd_pcm_file_conf_rejected_witness :
  let w := PcmFile.boot (PcmFile.slave_taking 8 0) 5 0 in
  existsb PcmFileConf.refused PcmFileConf.tee_conf_typo = true /\
  PcmFileConf._snd_pcm_file_open "tee" PcmFileConf.tee_conf_typo 0 0 w =
    PcmFile.Ret (- Errno.EINVAL, None) w.
Proof.
  intros w. split; [reflexivity|].
  apply snd_pcm_file_conf_rejected. left. reflexivity.
Defined.

Lemma snd_pcm_file_conf_last_wins_witness :
  let w := PcmFile.boot (PcmFile.slave_taking 8 0) 5 0 in
  (existsb PcmFileConf.refused PcmFileConf.tee_conf = false /\
   existsb PcmFileConf.refused PcmFileConf.tee_conf_verbose = false /\
   last (PcmFileConf.snames PcmFileConf.tee_conf) =
     last (PcmFileConf.snames PcmFileConf.tee_conf_verbose) /\
   last (PcmFileConf.fnames PcmFileConf.tee_conf) =
     last (PcmFileConf.fnames PcmFileConf.tee_conf_verbose)) /\
  PcmFileConf._snd_pcm_file_open "tee" PcmFileConf.tee_conf 0 0 w =
    PcmFileConf._snd_pcm_file_open "tee" PcmFileConf.tee_conf_verbose 0 0 w.
Proof.
  intros w. split; [repeat split; reflexivity|].
  apply snd_pcm_file_conf_last_wins; try reflexivity.
  intros H. discriminate H.
Defined.

